(** * ai-article-studio: key store, provider clients, content fetcher, orchestrator

    A shallow embedding of [src/components/SettingsDialog.tsx] and
    [src/pages/Index.tsx], and the properties of their specification.

    - JavaScript strings are sequences of UTF-16 code units ([list N]);
      [.length], [.slice], [.trim] and the regular expressions of the source
      all work on code units.
    - The two Web Storage areas are finite maps from keys to strings.
    - Asynchronous functions are computations in a trace-and-exception monad:
      the trace records timers, network requests, toasts and React state
      setters in program order; the completion is a return value or a thrown
      value.  What the platform answers (URL parsing, [fetch], body readers)
      is a parameter. *)

From Stdlib Require Import NArith ZArith QArith Ascii String List DecimalString.
From stdpp Require Import gmap strings list fin_maps.

Local Open Scope N_scope.
Set Warnings "-register-all".

(* ===================================================================== *)
(** ** JavaScript strings                                                 *)
(* ===================================================================== *)

Module Js.

(** A string is its sequence of UTF-16 code units. *)
Abbreviation jsstring := (list N).

(** An ASCII literal of the source. *)
Definition lit (s : string) : jsstring :=
  map N_of_ascii (list_ascii_of_string s).

(** Truthiness of a string: every string but the empty one. *)
Definition truthy_str (s : jsstring) : bool :=
  match s with [] => false | _ => true end.

(** [x || d] where [x : string | null]. *)
Definition or_else (x : option jsstring) (d : jsstring) : jsstring :=
  match x with
  | Some s => if truthy_str s then s else d
  | None => d
  end.

(** [!x] where [x : string | null]. *)
Definition falsy (x : option jsstring) : bool :=
  match x with
  | Some s => negb (truthy_str s)
  | None => true
  end.

(** [a === b] on strings. *)
Definition str_eqb (a b : jsstring) : bool := bool_decide (a = b).

(** WhiteSpace and LineTerminator code units of ECMAScript: what [\s]
    matches and what [String.prototype.trim] removes. *)
Definition is_space (c : N) : bool :=
  (c =? 9) || (c =? 10) || (c =? 11) || (c =? 12) || (c =? 13) || (c =? 32)
  || (c =? 160) || (c =? 5760) || ((8192 <=? c) && (c <=? 8202))
  || (c =? 8232) || (c =? 8233) || (c =? 8239) || (c =? 8287)
  || (c =? 12288) || (c =? 65279).

Fixpoint trimStart (s : jsstring) : jsstring :=
  match s with
  | c :: r => if is_space c then trimStart r else s
  | [] => []
  end.

Definition trimEnd (s : jsstring) : jsstring := reverse (trimStart (reverse s)).

(** [s.trim()] *)
Definition trim (s : jsstring) : jsstring := trimEnd (trimStart s).

(** [s.length] *)
Definition len (s : jsstring) : N := N.of_nat (length s).

(** [s.slice(0, n)] for [0 <= n]. *)
Definition slice0 (n : N) (s : jsstring) : jsstring := take (N.to_nat n) s.

(** Decimal rendering of a non-negative integer, as [String(n)] and a
    template literal produce it. *)
Definition decimal (n : N) : jsstring :=
  lit (DecimalString.NilZero.string_of_uint (N.to_uint n)).

(** *** Global replacement

    [s.replace(re, rep)] for a global [re] that never matches the empty
    string: the input is scanned from the left; where [re] matches, the
    match is replaced and scanning resumes after it; elsewhere the code unit
    is copied.  A pattern is given by its matcher: the length of the match
    that starts at the head of the remaining input, if there is one. *)
Fixpoint replace_skip (m : jsstring -> option nat) (rep : jsstring)
    (skip : nat) (s : jsstring) : jsstring :=
  match s with
  | [] => []
  | c :: r =>
    match skip with
    | S k => replace_skip m rep k r
    | O =>
      match m s with
      | Some (S n) => rep ++ replace_skip m rep n r
      | _ => c :: replace_skip m rep 0 r
      end
    end
  end.

Definition replace_global (m : jsstring -> option nat) (rep s : jsstring) : jsstring :=
  replace_skip m rep 0 s.

(** Longest prefix of code units satisfying [p] (a greedy class loop). *)
Fixpoint span_len (p : N -> bool) (s : jsstring) : nat :=
  match s with
  | c :: r => if p c then S (span_len p r) else O
  | [] => O
  end.

(** [/\s+/] *)
Definition re_spaces (s : jsstring) : option nat :=
  match span_len is_space s with
  | O => None
  | n => Some n
  end.

(** Canonicalisation of the [i] flag (no [u] flag) restricted to what can
    equal an ASCII pattern character: ASCII letters fold to upper case, and
    no code unit from 128 up canonicalises below 128. *)
Definition canon (c : N) : N :=
  if (97 <=? c) && (c <=? 122) then c - 32 else c.

Definition ci_eqb (a b : N) : bool := canon a =? canon b.

(** The input starts with the pattern text, ignoring ASCII case. *)
Fixpoint starts_ci (pat s : jsstring) : bool :=
  match pat, s with
  | [], _ => true
  | p :: pat', c :: s' => ci_eqb p c && starts_ci pat' s'
  | _ :: _, [] => false
  end.

(** Offset of the first place at or after the head where the pattern text
    occurs (a lazy [[\s\S]*?] followed by literal text). *)
Fixpoint find_ci (pat s : jsstring) : option nat :=
  if starts_ci pat s then Some O
  else match s with
       | [] => None
       | _ :: r => S <$> find_ci pat r
       end.

Definition not_gt (c : N) : bool := negb (c =? 62).

(** [/<name[^>]*>[\s\S]*?<\/name>/i] for [name] = script or style. *)
Definition re_block (name : string) (s : jsstring) : option nat :=
  let opening := lit "<" ++ lit name in
  let closing := lit "</" ++ lit name ++ lit ">" in
  if starts_ci opening s then
    let r1 := drop (length opening) s in
    let a := span_len not_gt r1 in
    match drop a r1 with
    | 62 :: r2 =>
      match find_ci closing r2 with
      | Some j => Some (length opening + a + 1 + j + length closing)%nat
      | None => None
      end
    | _ => None
    end
  else None.

(** [/<[^>]+>/] *)
Definition re_tag (s : jsstring) : option nat :=
  match s with
  | 60 :: r =>
    match span_len not_gt r with
    | O => None
    | a => match drop a r with
           | 62 :: _ => Some (1 + a + 1)%nat
           | _ => None
           end
    end
  | _ => None
  end.

End Js.

Import Js.

(* ===================================================================== *)
(** ** Effects shared by the two components                               *)
(* ===================================================================== *)

(** [toast.success], [toast.error], [toast.warning] of the notification
    library. *)
Inductive Toast :=
| toast_success (msg : jsstring)
| toast_error (msg : jsstring)
| toast_warning (msg : jsstring).

(* ===================================================================== *)
(** ** src/components/SettingsDialog.tsx                                  *)
(* ===================================================================== *)

Module SettingsDialog.

(** [type Provider = "openai" | "gemini"] *)
Inductive Provider := openai | gemini.

Definition Provider_str (p : Provider) : jsstring :=
  match p with
  | openai => lit "openai"
  | gemini => lit "gemini"
  end.

Module LOCAL_KEYS.
Definition provider : string := "ai_provider".
Definition openai : string := "openai_api_key".
Definition gemini : string := "gemini_api_key".
Definition storeMode : string := "ai_store_mode".
End LOCAL_KEYS.

(** The two Web Storage areas of the page. *)
Record Browser := mkBrowser {
  localStorage : gmap string jsstring;
  sessionStorage : gmap string jsstring;
}.

(** A reference to one of the two storage objects: [target] and [other] of
    [onSave] and [storage] of [getApiKey] alias the global areas. *)
Inductive StorageRef := ref_localStorage | ref_sessionStorage.

#[global] Instance StorageRef_eq_dec : EqDecision StorageRef.
Proof. solve_decision. Defined.

#[global] Instance Provider_eq_dec : EqDecision Provider.
Proof. solve_decision. Defined.

Definition area (r : StorageRef) (b : Browser) : gmap string jsstring :=
  match r with
  | ref_localStorage => localStorage b
  | ref_sessionStorage => sessionStorage b
  end.

Definition getItem (r : StorageRef) (k : string) (b : Browser) : option jsstring :=
  area r b !! k.

Definition setItem (r : StorageRef) (k : string) (v : jsstring) (b : Browser) : Browser :=
  match r with
  | ref_localStorage => mkBrowser (<[k := v]> (localStorage b)) (sessionStorage b)
  | ref_sessionStorage => mkBrowser (localStorage b) (<[k := v]> (sessionStorage b))
  end.

Definition removeItem (r : StorageRef) (k : string) (b : Browser) : Browser :=
  match r with
  | ref_localStorage => mkBrowser (delete k (localStorage b)) (sessionStorage b)
  | ref_sessionStorage => mkBrowser (localStorage b) (delete k (sessionStorage b))
  end.

(** [mode === "session" ? sessionStorage : localStorage] *)
Definition storage_for (mode : jsstring) : StorageRef :=
  if str_eqb mode (lit "session") then ref_sessionStorage else ref_localStorage.

(** [storeMode === "session" ? localStorage : sessionStorage] *)
Definition other_for (mode : jsstring) : StorageRef :=
  if str_eqb mode (lit "session") then ref_localStorage else ref_sessionStorage.

Definition key_of (p : Provider) : string :=
  match p with
  | openai => LOCAL_KEYS.openai
  | gemini => LOCAL_KEYS.gemini
  end.

Definition getStoredProvider (b : Browser) : Provider :=
  let p := or_else (getItem ref_localStorage LOCAL_KEYS.provider b) (lit "openai") in
  if str_eqb p (lit "gemini") then gemini else openai.

(** The persisted storage mode as [getApiKey] reads it. *)
Definition storedMode (b : Browser) : jsstring :=
  or_else (getItem ref_localStorage LOCAL_KEYS.storeMode b) (lit "local").

Definition getApiKey (p : Provider) (b : Browser) : option jsstring :=
  let mode := storedMode b in
  let storage := storage_for mode in
  getItem storage (key_of p) b.

(** What [onSave] does besides writing the storage areas. *)
Inductive DialogEvent :=
| dlg_toast (t : Toast)
| dlg_setOpen (v : bool).

(** [onSave], on the component state [provider], [storeMode], [openaiKey],
    [geminiKey].  [storeMode] is typed ["local" | "session"] but is loaded
    from storage through an unchecked cast, so it is any string here. *)
Definition onSave (provider : Provider) (storeMode openaiKey geminiKey : jsstring)
    (b : Browser) : Browser * list DialogEvent :=
  let b := setItem ref_localStorage LOCAL_KEYS.provider (Provider_str provider) b in
  let b := setItem ref_localStorage LOCAL_KEYS.storeMode storeMode b in
  let target := storage_for storeMode in
  let other := other_for storeMode in
  let b := if truthy_str openaiKey
           then setItem target LOCAL_KEYS.openai openaiKey b
           else removeItem target LOCAL_KEYS.openai b in
  let b := if truthy_str geminiKey
           then setItem target LOCAL_KEYS.gemini geminiKey b
           else removeItem target LOCAL_KEYS.gemini b in
  let b := removeItem other LOCAL_KEYS.openai b in
  let b := removeItem other LOCAL_KEYS.gemini b in
  (b,
   [dlg_toast (toast_success
      (if str_eqb storeMode (lit "session")
       then lit "Saved to this session only."
       else lit "Settings saved on this device."));
    dlg_setOpen false]).

End SettingsDialog.

(* ===================================================================== *)
(** ** JSON values and the property reads of the source                   *)
(* ===================================================================== *)

Module Json.

(** A value as [JSON.parse] builds it and [JSON.stringify] reads it.  An
    object keeps its members in source order; a repeated name is read at its
    last occurrence. *)
Inductive JSON :=
| JNull
| JBool (b : bool)
| JNum (q : Q)
| JStr (s : jsstring)
| JArr (items : list JSON)
| JObj (props : list (jsstring * JSON)).

(** A value during evaluation: [undefined] or a JSON value. *)
Inductive Val :=
| undefined
| val (j : JSON).

Fixpoint own (k : jsstring) (props : list (jsstring * JSON)) : option JSON :=
  match props with
  | [] => None
  | (k', v) :: r =>
    match own k r with
    | Some v' => Some v'
    | None => if str_eqb k k' then Some v else None
    end
  end.

Definition of_option (o : option JSON) : Val :=
  match o with
  | Some j => val j
  | None => undefined
  end.

(** [v == null]: undefined or null. *)
Definition nullish (v : Val) : bool :=
  match v with
  | undefined | val JNull => true
  | _ => false
  end.

Definition truthy (v : Val) : bool :=
  match v with
  | undefined | val JNull => false
  | val (JBool b) => b
  | val (JNum q) => negb (Qnum q =? 0)%Z
  | val (JStr s) => truthy_str s
  | val (JArr _) | val (JObj _) => true
  end.

(** [a || b] *)
Definition lor (a b : Val) : Val := if truthy a then a else b.

(** [v.k] on a value that is neither undefined nor null, for a name [k]
    that no standard prototype defines (choices, message, content,
    candidates, parts, text): an own member of an object, undefined on
    everything else. *)
Definition field (k : jsstring) (j : JSON) : Val :=
  match j with
  | JObj props => of_option (own k props)
  | _ => undefined
  end.

(** [v[0]] on a value that is neither undefined nor null. *)
Definition index0 (j : JSON) : Val :=
  match j with
  | JArr items => of_option (head items)
  | JStr (c :: _) => val (JStr [c])
  | JObj props => of_option (own (lit "0") props)
  | _ => undefined
  end.

(** [v?.k] *)
Definition opt_field (k : jsstring) (v : Val) : Val :=
  match v with
  | undefined | val JNull => undefined
  | val j => field k j
  end.

(** [v?.[0]] *)
Definition opt_index0 (v : Val) : Val :=
  match v with
  | undefined | val JNull => undefined
  | val j => index0 j
  end.

End Json.

Import Json.

(* ===================================================================== *)
(** ** src/pages/Index.tsx                                                *)
(* ===================================================================== *)

Module Index.

Import SettingsDialog.

(** *** Thrown values *)

Inductive Exn :=
| JsError (message : jsstring)
  (** [new Error(message)] thrown by the source *)
| EngineTypeError (what : string)
  (** a TypeError raised by the language; its wording is the engine's *)
| PlatformError (name : string) (message : jsstring).
  (** an exception or rejection supplied by a platform API: [new URL],
      [fetch] (network failure, abort), a body reader *)

(** *** The platform *)

(** The fields of [RequestInit] the source sets, and the URL. *)
Record Request := mkRequest {
  req_url : jsstring;
  req_method : jsstring;
  req_headers : list (jsstring * jsstring);
  req_body : option JSON;           (* the value given to JSON.stringify *)
  req_mode : option jsstring;
  req_credentials : option jsstring;
  req_redirect : option jsstring;
  req_cache : jsstring;
  req_referrerPolicy : jsstring;
  req_signal : bool;                (* bound to the controller's signal *)
}.

(** A response: its status and what its body readers settle to. *)
Record Response := mkResponse {
  status : N;
  json : Exn + JSON;
  text : Exn + jsstring;
}.

(** [res.ok]: the status is in the range 200 to 299. *)
Definition ok (res : Response) : bool :=
  (200 <=? status res) && (status res <=? 299).

Record URL := mkURL {
  protocol : jsstring;
  href : jsstring;                  (* u.toString() *)
}.

Record Platform := mkPlatform {
  new_URL : jsstring -> Exn + URL;
  (** what awaiting [fetch(...)] settles to; an abort by the timer is a
      rejection *)
  fetch_settles : Request -> Exn + Response;
  (** the [message] of a TypeError of the engine *)
  type_error_message : string -> jsstring;
  (** the text of an inherited built-in in a template literal *)
  builtin_text : jsstring -> jsstring;
}.

(** *** Effects *)

Inductive Event :=
| ev_setTimeout (ms : N)
| ev_clearTimeout
| ev_fetch (req : Request)
| ev_toast (t : Toast)
| ev_console_error (e : Exn)
| ev_setGenerating (v : bool)
| ev_setArticle (v : jsstring)
| ev_setSummarizing (v : bool)
| ev_setSummary (v : jsstring).

Inductive Completion (A : Type) :=
| Return (a : A)
| Throw (e : Exn).
Arguments Return {A} a.
Arguments Throw {A} e.

(** A computation: the events it performs, in order, and how it completes. *)
Definition Eff (A : Type) : Type := list Event * Completion A.

Definition ret {A} (a : A) : Eff A := ([], Return a).

Definition throw {A} (e : Exn) : Eff A := ([], Throw e).

Definition emit (ev : Event) : Eff unit := ([ev], Return tt).

Definition bind {A B} (m : Eff A) (k : A -> Eff B) : Eff B :=
  match m with
  | (t, Return a) => let (t', c) := k a in (t ++ t', c)
  | (t, Throw e) => (t, Throw e)
  end.

Notation "'do' x <- m ; k" := (bind m (fun x => k))
  (at level 10, x name, m at level 100, k at level 200).
Notation "m ;; k" := (bind m (fun _ => k))
  (at level 100, k at level 200, right associativity).

(** [try { m } finally { fin }] *)
Definition try_finally {A} (m : Eff A) (fin : Eff unit) : Eff A :=
  let (t, c) := m in
  match fin with
  | (t', Return _) => (t ++ t', c)
  | (t', Throw e) => (t ++ t', Throw e)
  end.

(** [try { m } catch (e) { h e }] *)
Definition try_catch {A} (m : Eff A) (h : Exn -> Eff A) : Eff A :=
  match m with
  | (t, Return a) => (t, Return a)
  | (t, Throw e) => let (t', c) := h e in (t ++ t', c)
  end.

Definition settle {A} (o : Exn + A) : Eff A :=
  match o with
  | inl e => throw e
  | inr a => ret a
  end.

Definition trace {A} (m : Eff A) : list Event := fst m.
Definition completion {A} (m : Eff A) : Completion A := snd m.

Definition setTimeout (ms : N) : Eff unit := emit (ev_setTimeout ms).
Definition clearTimeout : Eff unit := emit ev_clearTimeout.

(** [await fetch(url, init)] *)
Definition fetch (pf : Platform) (req : Request) : Eff Response :=
  emit (ev_fetch req) ;; settle (fetch_settles pf req).

Definition toast_error_ (msg : string) : Eff unit :=
  emit (ev_toast (toast_error (lit msg))).

(** [e?.message] of a thrown value. *)
Definition message_of (pf : Platform) (e : Exn) : jsstring :=
  match e with
  | JsError m => m
  | EngineTypeError what => type_error_message pf what
  | PlatformError _ m => m
  end.

Definition LENGTH_PRESETS : list (jsstring * N) :=
  [(lit "short", 300); (lit "medium", 700); (lit "long", 1200)].

Definition MAX_TEXT : N := 12000.

(** *** Provider clients *)

(** [data.k] where [data] is what [res.json()] gave. *)
Definition member (k : jsstring) (data : JSON) : Eff Val :=
  match data with
  | JNull => throw (EngineTypeError "cannot read properties of null")
  | j => ret (field k j)
  end.

(** [v?.trim?.()]: undefined when [v] is undefined or null or has no
    [trim]; the trimmed string on a string; a TypeError on an object whose
    own [trim] member is neither null nor callable. *)
Definition opt_trim_call (v : Val) : Eff (option jsstring) :=
  match v with
  | val (JStr s) => ret (Some (trim s))
  | val (JObj props) =>
    match own (lit "trim") props with
    | None | Some JNull => ret None
    | Some _ => throw (EngineTypeError "trim is not a function")
    end
  | _ => ret None
  end.

(** [text.trim()] *)
Definition trim_call (v : Val) : Eff jsstring :=
  match v with
  | val (JStr s) => ret (trim s)
  | _ => throw (EngineTypeError "text.trim is not a function")
  end.

(** [data.choices?.[0]?.message?.content?.trim?.()], or the empty string
    when that is falsy. *)
Definition openai_text (data : JSON) : Eff jsstring :=
  do choices <- member (lit "choices") data;
  do content <- opt_trim_call
    (opt_field (lit "content") (opt_field (lit "message") (opt_index0 choices)));
  ret (or_else content []).

(** [data.candidates?.[0]?.content?.parts?.[0]?.text], or the empty string
    when that is falsy; then [text.trim()]. *)
Definition gemini_text (data : JSON) : Eff jsstring :=
  do candidates <- member (lit "candidates") data;
  let text :=
    lor (opt_field (lit "text")
           (opt_index0
              (opt_field (lit "parts")
                 (opt_field (lit "content") (opt_index0 candidates)))))
        (val (JStr [])) in
  trim_call text.

(** The request of [callOpenAI]: URL and init object. *)
Definition openai_request (apiKey prompt : jsstring) : Request := {|
         req_url := lit "https://api.openai.com/v1/chat/completions";
         req_method := lit "POST";
         req_headers :=
           [(lit "Content-Type", lit "application/json");
            (lit "Authorization", lit "Bearer " ++ apiKey)];
         req_body := Some (JObj
           [(lit "model", JStr (lit "gpt-4o-mini"));
            (lit "messages", JArr
               [JObj [(lit "role", JStr (lit "system"));
                      (lit "content", JStr (lit "You are a professional content writer."))];
                JObj [(lit "role", JStr (lit "user"));
                      (lit "content", JStr prompt)]]);
            (lit "temperature", JNum (Qmake 7 10))]);
         req_mode := None;
         req_credentials := None;
         req_redirect := None;
         req_cache := lit "no-store";
         req_referrerPolicy := lit "no-referrer";
         req_signal := true |}.

Definition callOpenAI (pf : Platform) (apiKey prompt : jsstring) : Eff jsstring :=
  setTimeout 30000 ;;
  try_finally
    (do res <- fetch pf (openai_request apiKey prompt);
     if negb (ok res) then throw (JsError (lit "OpenAI error " ++ decimal (status res)))
     else
       do data <- settle (json res);
       openai_text data)
    clearTimeout.

(** The request of [callGemini]. *)
Definition gemini_request (apiKey prompt : jsstring) : Request := {|
         req_url :=
           lit "https://generativelanguage.googleapis.com/v1beta/models/gemini-1.5-flash:generateContent?key="
           ++ apiKey;
         req_method := lit "POST";
         req_headers := [(lit "Content-Type", lit "application/json")];
         req_body := Some (JObj
           [(lit "contents", JArr
               [JObj [(lit "role", JStr (lit "user"));
                      (lit "parts", JArr [JObj [(lit "text", JStr prompt)]])]])]);
         req_mode := None;
         req_credentials := None;
         req_redirect := None;
         req_cache := lit "no-store";
         req_referrerPolicy := lit "no-referrer";
         req_signal := true |}.

Definition callGemini (pf : Platform) (apiKey prompt : jsstring) : Eff jsstring :=
  setTimeout 30000 ;;
  try_finally
    (do res <- fetch pf (gemini_request apiKey prompt);
     if negb (ok res) then throw (JsError (lit "Gemini error " ++ decimal (status res)))
     else
       do data <- settle (json res);
       gemini_text data)
    clearTimeout.

(** *** Content fetcher *)

(** [[a, b].includes(x)] on strings. *)
Definition includes (l : list jsstring) (x : jsstring) : bool :=
  existsb (str_eqb x) l.

Definition http_schemes : list jsstring := [lit "http:"; lit "https:"].

(** The three tag-stripping replacements, then whitespace collapse and
    trim. *)
Definition strip_html (html : jsstring) : jsstring :=
  let text :=
    replace_global re_tag (lit " ")
      (replace_global (re_block "style") []
         (replace_global (re_block "script") [] html)) in
  trim (replace_global re_spaces (lit " ") text).

(** The request of [tryFetchUrlContent] for the parsed URL [u]. *)
Definition content_request (u : URL) : Request := {|
           req_url := href u;
           req_method := lit "GET";
           req_headers := [];
           req_body := None;
           req_mode := Some (lit "cors");
           req_credentials := Some (lit "omit");
           req_redirect := Some (lit "follow");
           req_cache := lit "no-store";
           req_referrerPolicy := lit "no-referrer";
           req_signal := true |}.

Definition tryFetchUrlContent (pf : Platform) (url : jsstring) : Eff (option jsstring) :=
  try_catch
    (do u <- settle (new_URL pf url);
     if negb (includes http_schemes (protocol u)) then ret None
     else
       setTimeout 8000 ;;
       do res <- fetch pf (content_request u);
       clearTimeout ;;
       if negb (ok res) then ret None
       else
         do html <- settle (text res);
         ret (Some (strip_html html)))
    (fun _ => ret None).

(** *** Orchestrator

    The component state read by the two handlers: [provider], the memoised
    [providerKey] (what [getApiKey(provider)] gave), and the form fields. *)

Definition ensureKey (providerKey : option jsstring) : Eff bool :=
  if falsy providerKey then
    toast_error_ "Add your API key in Settings (top right)." ;; ret false
  else ret true.

(** [providerKey!] *)
Definition assert_key (providerKey : option jsstring) : jsstring :=
  default [] providerKey.

Definition callProvider (pf : Platform) (provider : Provider)
    (providerKey : option jsstring) (prompt : jsstring) : Eff jsstring :=
  match provider with
  | openai => callOpenAI pf (assert_key providerKey) prompt
  | gemini => callGemini pf (assert_key providerKey) prompt
  end.

(** Names that every object literal inherits from [Object.prototype] in a
    browser. *)
Definition Object_prototype : list jsstring :=
  map lit
    ["constructor"; "__defineGetter__"; "__defineSetter__"; "hasOwnProperty";
     "__lookupGetter__"; "__lookupSetter__"; "isPrototypeOf";
     "propertyIsEnumerable"; "toString"; "valueOf"; "__proto__";
     "toLocaleString"]%string.

(** What a read of [LENGTH_PRESETS[k]] yields when it is not undefined. *)
Inductive PresetValue :=
| own_number (n : N)
| inherited (name : jsstring).

Fixpoint assoc (k : jsstring) (l : list (jsstring * N)) : option N :=
  match l with
  | [] => None
  | (k', n) :: r => if str_eqb k k' then Some n else assoc k r
  end.

(** [LENGTH_PRESETS[k]]: an own member, else an inherited one, else
    undefined. *)
Definition LENGTH_PRESETS_get (k : jsstring) : option PresetValue :=
  match assoc k LENGTH_PRESETS with
  | Some n => Some (own_number n)
  | None => if includes Object_prototype k then Some (inherited k) else None
  end.

(** [LENGTH_PRESETS[length] ?? LENGTH_PRESETS.medium] *)
Definition words_for (length : jsstring) : PresetValue :=
  match LENGTH_PRESETS_get length with
  | Some v => v
  | None => default (own_number 0) (LENGTH_PRESETS_get (lit "medium"))
  end.

(** [${words}] *)
Definition show_words (pf : Platform) (w : PresetValue) : jsstring :=
  match w with
  | own_number n => decimal n
  | inherited name => builtin_text pf name
  end.

Definition cleanTopic (topic : jsstring) : jsstring :=
  trim (replace_global re_spaces (lit " ") topic).

Definition generate_prompt (pf : Platform) (cleanTopic : jsstring) (words : PresetValue) : jsstring :=
  lit "Write an informative, SEO-friendly article about " ++ [34] ++ cleanTopic ++ [34]
  ++ lit " in about " ++ show_words pf words
  ++ lit " words. Use clear headings and short paragraphs. End with a brief conclusion.".

(** [e?.message || fallback] *)
Definition message_or (pf : Platform) (e : Exn) (fallback : string) : jsstring :=
  or_else (Some (message_of pf e)) (lit fallback).

Definition onGenerate (pf : Platform) (provider : Provider)
    (providerKey : option jsstring) (topic length : jsstring) : Eff unit :=
  let cleanTopic := cleanTopic topic in
  if negb (truthy_str cleanTopic) then toast_error_ "Please enter a topic or keyword."
  else if 120 <? len cleanTopic then toast_error_ "Topic is too long (max 120 characters)."
  else
    do haveKey <- ensureKey providerKey;
    if negb haveKey then ret tt
    else
      emit (ev_setGenerating true) ;;
      emit (ev_setArticle []) ;;
      try_finally
        (try_catch
           (let words := words_for length in
            let prompt := generate_prompt pf cleanTopic words in
            do text <- callProvider pf provider providerKey prompt;
            emit (ev_setArticle text))
           (fun e =>
              emit (ev_console_error e) ;;
              emit (ev_toast (toast_error (message_or pf e "Generation failed")))))
        (emit (ev_setGenerating false)).

(** How a block of a handler ends: control goes on with a value, or the
    handler has returned. *)
Inductive Flow (A : Type) :=
| Continue (a : A)
| Returned.
Arguments Continue {A} a.
Arguments Returned {A}.

Definition summarize_prompt (text : jsstring) : jsstring :=
  lit "Summarize the following article in a concise, clear, bullet-point format under 150 words."
  ++ [10; 10] ++ lit "Article:" ++ [10] ++ text.

(** The block [if (!text && sourceUrl.trim()) { ... }] of [onSummarize]. *)
Definition resolve_source (pf : Platform) (text sourceUrl : jsstring) : Eff (Flow jsstring) :=
  if negb (truthy_str text) && truthy_str (trim sourceUrl) then
    do valid <- try_catch
        (do u <- settle (new_URL pf (trim sourceUrl));
         if negb (includes http_schemes (protocol u)) then throw (JsError [])
         else ret true)
        (fun _ => toast_error_ "Enter a valid http(s) URL." ;; ret false);
    if negb valid then ret Returned
    else
      do fetched <- tryFetchUrlContent pf (trim sourceUrl);
      if falsy fetched then
        toast_error_ "Could not fetch URL (CORS). Please paste the article text." ;;
        ret Returned
      else ret (Continue (default [] fetched))
  else ret (Continue text).

(** The block [if (text.length > MAX_TEXT) { ... }]. *)
Definition truncate_text (text : jsstring) : Eff jsstring :=
  if MAX_TEXT <? len text then
    emit (ev_toast (toast_warning (lit "Input truncated to prevent oversized requests."))) ;;
    ret (slice0 MAX_TEXT text)
  else ret text.

(** The rest of [onSummarize], from [setSummarizing(true)] on, for the
    text that goes into the prompt. *)
Definition summarize_text (pf : Platform) (provider : Provider)
    (providerKey : option jsstring) (text : jsstring) : Eff unit :=
  emit (ev_setSummarizing true) ;;
  emit (ev_setSummary []) ;;
  try_finally
    (try_catch
       (let prompt := summarize_prompt text in
        do result <- callProvider pf provider providerKey prompt;
        emit (ev_setSummary result))
       (fun e =>
          emit (ev_console_error e) ;;
          emit (ev_toast (toast_error (message_or pf e "Summarization failed")))))
    (emit (ev_setSummarizing false)).

Definition onSummarize (pf : Platform) (provider : Provider)
    (providerKey : option jsstring) (sourceText sourceUrl : jsstring) : Eff unit :=
  do haveKey <- ensureKey providerKey;
  if negb haveKey then ret tt
  else
    do source <- resolve_source pf (trim sourceText) sourceUrl;
    match source with
    | Returned => ret tt
    | Continue text =>
      if negb (truthy_str text) then toast_error_ "Paste text or provide a URL."
      else
        do text <- truncate_text text;
        summarize_text pf provider providerKey text
    end.

End Index.

(* ===================================================================== *)
(** ** Component state at mount                                           *)
(* ===================================================================== *)

Module Lifecycle.

Import SettingsDialog.

(** The form state of [SettingsDialog]. *)
Record DialogState := mkDialogState {
  provider : Provider;
  openaiKey : jsstring;
  geminiKey : jsstring;
  storeMode : jsstring;
}.

(** The mount effect of [SettingsDialog]: the state it sets from the
    storage areas. *)
Definition loadSettings (b : Browser) : DialogState :=
  let mode := or_else (getItem ref_localStorage LOCAL_KEYS.storeMode b) (lit "local") in
  let storage := storage_for mode in
  {| provider := getStoredProvider b;
     storeMode := mode;
     openaiKey := or_else (getItem storage LOCAL_KEYS.openai b) [];
     geminiKey := or_else (getItem storage LOCAL_KEYS.gemini b) [] |}.

(** [onSave] on a form state. *)
Definition save (s : DialogState) (b : Browser) : Browser :=
  fst (onSave (provider s) (storeMode s) (openaiKey s) (geminiKey s) b).

(** What the handlers of [Index] read: the [provider] state and the
    memoised [providerKey]. *)
Record IndexState := mkIndexState {
  activeProvider : Provider;
  providerKey : option jsstring;
}.

(** The first render: [useState<Provider>("openai")] and
    [useMemo(() => getApiKey(provider), [provider])]. *)
Definition first_render (b : Browser) : IndexState :=
  {| activeProvider := openai; providerKey := getApiKey openai b |}.

(** A render after [setProvider(p)]: the memo is recomputed only when its
    dependency [provider] has changed. *)
Definition render_with (p : Provider) (prev : IndexState) (b : Browser) : IndexState :=
  {| activeProvider := p;
     providerKey := if decide (p = activeProvider prev)
                    then providerKey prev
                    else getApiKey p b |}.

(** The page once its mount effect [setProvider(getStoredProvider())] has
    run. *)
Definition mount (b : Browser) : IndexState :=
  render_with (getStoredProvider b) (first_render b) b.

End Lifecycle.

(* ===================================================================== *)
(** ** Vocabulary of the specification                                    *)
(* ===================================================================== *)

Module Spec.

Import SettingsDialog Index.

(** *** Key store *)

(** The key entered in the dialog for a provider. *)
Definition entered (q : Provider) (kA kB : jsstring) : jsstring :=
  match q with
  | openai => kA
  | gemini => kB
  end.

(** Switching the persisted mode flag alone, as a later read finds it. *)
Definition switch_mode (m : jsstring) (b : Browser) : Browser :=
  setItem ref_localStorage LOCAL_KEYS.storeMode m b.

(** A browser with leftovers in both areas. *)
Definition sample_browser : Browser :=
  mkBrowser {[ LOCAL_KEYS.openai := lit "old" ]} {[ LOCAL_KEYS.gemini := lit "stale" ]}.

(** The state after saving the OpenAI key "x" in session mode. *)
Definition session_saved : Browser :=
  fst (onSave openai (lit "session") (lit "x") [] sample_browser).

(** *** Observations on a trace *)

(** A computation that performs no event. *)
Definition silent {A} (m : Eff A) : Prop := trace m = [].

Definition count (p : Event -> bool) (t : list Event) : nat :=
  length (List.filter p t).

Definition is_setTimeout (ev : Event) : bool :=
  match ev with ev_setTimeout _ => true | _ => false end.

Definition is_clearTimeout (ev : Event) : bool :=
  match ev with ev_clearTimeout => true | _ => false end.

Definition is_warning (ev : Event) : bool :=
  match ev with ev_toast (toast_warning _) => true | _ => false end.

(** Timers armed and timers disarmed during a computation. *)
Definition armed (t : list Event) : nat := count is_setTimeout t.
Definition disarmed (t : list Event) : nat := count is_clearTimeout t.

(** Truncation warnings shown. *)
Definition warnings (t : list Event) : nat := count is_warning t.

(** The network requests issued, in order. *)
Definition requests (t : list Event) : list Request :=
  omap (fun ev => match ev with ev_fetch r => Some r | _ => None end) t.

(** The request the active provider's client sends for a prompt. *)
Definition provider_request (provider : Provider) (apiKey prompt : jsstring) : Request :=
  match provider with
  | openai => openai_request apiKey prompt
  | gemini => gemini_request apiKey prompt
  end.

(** *** Error kinds

    The handlers report a failure as one error toast and return.  The kinds
    of the specification are told apart by the message. *)
Inductive ErrorKind := ValidationError | ConfigError | FetchError.

Definition messages (k : ErrorKind) : list jsstring :=
  match k with
  | ValidationError =>
    [lit "Please enter a topic or keyword.";
     lit "Topic is too long (max 120 characters).";
     lit "Enter a valid http(s) URL.";
     lit "Paste text or provide a URL."]
  | ConfigError => [lit "Add your API key in Settings (top right)."]
  | FetchError => [lit "Could not fetch URL (CORS). Please paste the article text."]
  end.

(** The handler did nothing but report a failure of kind [k]. *)
Definition fails_with (k : ErrorKind) (m : Eff unit) : Prop :=
  exists msg, In msg (messages k) /\ m = ([ev_toast (toast_error msg)], Return tt).

(** *** Response paths

    A path of the wire contract, as [choices[0].message.content]: member
    reads and reads of element 0, each with the meaning it has in the
    language.  The path is absent when a read on the way meets undefined or
    null, or the value at its end is undefined or null. *)
Inductive Step :=
| member_ (k : string)
| element0.

Definition read_step (s : Step) (v : Val) : Val :=
  match v with
  | undefined | val JNull => undefined
  | val j =>
    match s with
    | member_ k => field (lit k) j
    | element0 => index0 j
    end
  end.

Definition read_path (p : list Step) (data : JSON) : Val :=
  fold_left (fun v s => read_step s v) p (val data).

Definition openai_path : list Step :=
  [member_ "choices"; element0; member_ "message"; member_ "content"].

Definition gemini_path : list Step :=
  [member_ "candidates"; element0; member_ "content"; member_ "parts";
   element0; member_ "text"].

(** *** Sample platforms, for the concrete instances *)

(** A URL parser that knows three schemes. *)
Definition sample_URL (s : jsstring) : Exn + URL :=
  if starts_ci (lit "https://") s then inr (mkURL (lit "https:") s)
  else if starts_ci (lit "http://") s then inr (mkURL (lit "http:") s)
  else if starts_ci (lit "ftp://") s then inr (mkURL (lit "ftp:") s)
  else inl (PlatformError "TypeError" (lit "Invalid URL")).

(** Every request is rejected (no network, or the timer aborted it). *)
Definition offline : Platform := {|
  new_URL := sample_URL;
  fetch_settles := fun _ => inl (PlatformError "TypeError" (lit "Failed to fetch"));
  type_error_message := lit;
  builtin_text := fun name => lit "function " ++ name ++ lit "() { [native code] }";
|}.

(** Every request is answered with the given response. *)
Definition answering (res : Response) : Platform := {|
  new_URL := sample_URL;
  fetch_settles := fun _ => inr res;
  type_error_message := lit;
  builtin_text := fun name => lit "function " ++ name ++ lit "() { [native code] }";
|}.

Definition json_response (st : N) (data : JSON) : Response := {|
  status := st;
  json := inr data;
  text := inl (PlatformError "TypeError" (lit "body used already"));
|}.

(** A completion body of variant A and a generation body of variant B. *)
Definition sample_openai_body : JSON :=
  JObj [(lit "id", JStr (lit "chatcmpl-1"));
        (lit "choices", JArr
           [JObj [(lit "index", JNum 0);
                  (lit "message", JObj [(lit "role", JStr (lit "assistant"));
                                        (lit "content", JStr (lit "  Hello there. "))])]])].

Definition sample_gemini_body : JSON :=
  JObj [(lit "candidates", JArr
           [JObj [(lit "content", JObj
                     [(lit "role", JStr (lit "model"));
                      (lit "parts", JArr [JObj [(lit "text", JStr (10 :: lit "Hello there."))]])])]])].

(** A source text of 15000 code units. *)
Definition long_text : jsstring := repeat 97 (N.to_nat 15000).

Definition html_response (st : N) (html : jsstring) : Response := {|
  status := st;
  json := inl (PlatformError "SyntaxError" (lit "Unexpected token"));
  text := inr html;
|}.

End Spec.

(* ===================================================================== *)
(** ** Shapes of text                                                     *)
(* ===================================================================== *)

Module Shape.

(** The text does not start with white space. *)
Definition no_lead (s : jsstring) : Prop :=
  match s with
  | c :: _ => is_space c = false
  | [] => True
  end.

(** The text does not end with white space. *)
Definition no_trail (s : jsstring) : Prop := no_lead (reverse s).

(** Every white space of the text is one U+0020 that no other white space
    follows; [prev] tells whether white space precedes the text. *)
Fixpoint spaced (prev : bool) (s : jsstring) : bool :=
  match s with
  | [] => true
  | c :: r =>
    if is_space c then (c =? 32) && negb prev && spaced true r
    else spaced false r
  end.

(** Normal form of the two normalisations of the source: single spaces
    between words, none at either end. *)
Definition normal (s : jsstring) : Prop :=
  no_lead s /\ no_trail s /\ spaced false s = true.

(** [s.replace(/\s+/g, " ")], the first step of both normalisations. *)
Definition collapse (s : jsstring) : jsstring :=
  replace_global re_spaces (lit " ") s.

(** [s.replace(/<[^>]+>/g, " ")] *)
Definition strip_tags (s : jsstring) : jsstring :=
  replace_global re_tag (lit " ") s.

(** The text holds a ">". *)
Definition has_gt (s : jsstring) : bool := existsb (N.eqb 62) s.

(** Every "<" of the text is directly followed by ">" or has no ">" after
    it. *)
Fixpoint inert (s : jsstring) : bool :=
  match s with
  | [] => true
  | c :: r =>
    (if c =? 60
     then match r with
          | d :: _ => (d =? 62) || negb (has_gt r)
          | [] => true
          end
     else true) && inert r
  end.

(** The tag pattern [<[^>]+>] matches nowhere in the text. *)
Definition tag_free (s : jsstring) : Prop :=
  forall i : nat, re_tag (drop i s) = None.

End Shape.

(* ===================================================================== *)
(** ** Shapes of runs                                                     *)
(* ===================================================================== *)

Module Runs.

Import SettingsDialog Index Spec.

(** The three events of one provider call. *)
Definition provider_call (provider : Provider) (apiKey prompt : jsstring) : list Event :=
  [ev_setTimeout 30000; ev_fetch (provider_request provider apiKey prompt); ev_clearTimeout].

(** How [onGenerate] ends after the call: the article is stored, or the
    error is logged and shown. *)
Definition generate_outcome (pf : Platform) (c : Completion jsstring) : list Event :=
  match c with
  | Return text => [ev_setArticle text]
  | Throw e =>
    [ev_console_error e; ev_toast (toast_error (message_or pf e "Generation failed"))]
  end.

(** How [onSummarize] ends after the call. *)
Definition summarize_outcome (pf : Platform) (c : Completion jsstring) : list Event :=
  match c with
  | Return result => [ev_setSummary result]
  | Throw e =>
    [ev_console_error e; ev_toast (toast_error (message_or pf e "Summarization failed"))]
  end.

(** The topic passes the two checks of [onGenerate]. *)
Definition valid_topic (topic : jsstring) : bool :=
  truthy_str (cleanTopic topic) && negb (120 <? len (cleanTopic topic)).

(** The text that goes into the summarization prompt. *)
Definition capped (text : jsstring) : jsstring :=
  if MAX_TEXT <? len text then slice0 MAX_TEXT text else text.

(** The warning shown when the text is cut. *)
Definition cap_warning (text : jsstring) : list Event :=
  if MAX_TEXT <? len text
  then [ev_toast (toast_warning (lit "Input truncated to prevent oversized requests."))]
  else [].

(** The label a provider client puts before the status. *)
Definition error_label (provider : Provider) : jsstring :=
  match provider with
  | openai => lit "OpenAI error "
  | gemini => lit "Gemini error "
  end.

(** Every busy flag raised in the trace is lowered by its last event. *)
Definition busy_cleared (t : list Event) : Prop :=
  (In (ev_setGenerating true) t -> last t = Some (ev_setGenerating false))
  /\ (In (ev_setSummarizing true) t -> last t = Some (ev_setSummarizing false)).

End Runs.

(* ===================================================================== *)
(** ** The page and the key store over time                               *)
(* ===================================================================== *)

Module Page.

Import SettingsDialog Lifecycle.

(** A later render of the page with its [provider] state unchanged, the
    storage being [b] by then: the dependency of the memo has not changed,
    so [getApiKey] is not run again. *)
Definition rerender (page : IndexState) (b : Browser) : IndexState :=
  render_with (activeProvider page) page b.

(** Three states of the storage: nothing saved; an OpenAI key saved from
    the dialog; that key cleared again from the dialog. *)
Definition nothing_saved : Browser := mkBrowser ∅ ∅.

Definition key_saved : Browser :=
  fst (onSave openai (lit "local") (lit "sk-1") [] nothing_saved).

Definition key_cleared : Browser :=
  fst (onSave openai (lit "local") [] [] key_saved).

End Page.

(* ===================================================================== *)
(** ** Properties of the key store                                        *)
(* ===================================================================== *)

Section KeyStore.

Import SettingsDialog Spec.

Lemma str_eqb_true (a b : jsstring) : str_eqb a b = true <-> a = b.
Proof. unfold str_eqb. apply bool_decide_eq_true. Qed.

Lemma str_eqb_false (a b : jsstring) : str_eqb a b = false <-> a <> b.
Proof. unfold str_eqb. apply bool_decide_eq_false. Qed.

(** Case analysis on the three tests of [onSave]; what is left are lookups
    in explicit insert and delete chains. *)
Ltac save_cases m kA kB :=
  unfold onSave, getApiKey, storedMode, getStoredProvider, getItem, setItem,
    removeItem, storage_for, other_for;
  destruct (str_eqb m (lit "session")) eqn:?;
  destruct (truthy_str kA) eqn:?; destruct (truthy_str kB) eqn:?;
  cbn [fst area localStorage sessionStorage].

(** After [onSave], the area that the saved mode does not select holds
    neither API key. *)
Lemma onSave_clears_other p m kA kB b (q : Provider) :
  area (other_for m) (fst (onSave p m kA kB b)) !! key_of q = None.
Proof.
  save_cases m kA kB; destruct q; cbn [key_of]; by simplify_map_eq.
Qed.

(** After [onSave], the persisted mode is the saved one. *)
Lemma onSave_mode_flag p m kA kB b :
  localStorage (fst (onSave p m kA kB b)) !! LOCAL_KEYS.storeMode = Some m.
Proof.
  save_cases m kA kB; by simplify_map_eq.
Qed.

(** [getApiKey] is a lookup in the area selected by the persisted mode. *)
Lemma getApiKey_selected q b :
  getApiKey q b = area (storage_for (storedMode b)) b !! key_of q.
Proof. reflexivity. Qed.

(** The area [getApiKey] reads after [onSave] is the target of the save. *)
Lemma onSave_selected p m kA kB b :
  storage_for (storedMode (fst (onSave p m kA kB b))) = storage_for m.
Proof.
  unfold storedMode, getItem. cbn [area]. rewrite onSave_mode_flag.
  destruct m as [|c r]; reflexivity.
Qed.

Lemma onSave_target p m kA kB b (q : Provider) :
  area (storage_for m) (fst (onSave p m kA kB b)) !! key_of q
  = if truthy_str (entered q kA kB) then Some (entered q kA kB) else None.
Proof.
  save_cases m kA kB; destruct q; cbn [key_of entered];
    repeat match goal with H : truthy_str _ = _ |- _ => rewrite H; clear H end;
    by simplify_map_eq.
Qed.

(** C1. Key-store mutual exclusion.  After every [onSave] the storage area
    that the saved mode does not select (which is never the selected one)
    holds no API key of either provider; [getApiKey] returns what the area
    selected by the persisted mode holds (after a save: the key entered, or
    nothing for an empty one), and two browser states with the same mode
    flag and the same entry in the selected area give the same answer
    whatever the other area holds; so after a save in session mode,
    switching the persisted mode to local makes [getApiKey] return nothing
    for both providers. *)
Theorem key_store_mutual_exclusion (p : Provider) (m kA kB : jsstring) (b : Browser) :
  let b' := fst (onSave p m kA kB b) in
  other_for m <> storage_for m
  /\ (forall q, area (other_for m) b' !! key_of q = None)
  /\ (forall q, getApiKey q b' = area (storage_for m) b' !! key_of q
                /\ getApiKey q b' = if truthy_str (entered q kA kB)
                                    then Some (entered q kA kB) else None)
  /\ (forall q b1 b2,
        localStorage b1 !! LOCAL_KEYS.storeMode = localStorage b2 !! LOCAL_KEYS.storeMode ->
        area (storage_for (storedMode b1)) b1 !! key_of q
        = area (storage_for (storedMode b1)) b2 !! key_of q ->
        getApiKey q b1 = getApiKey q b2)
  /\ (forall q,
        let s := fst (onSave p (lit "session") kA kB b) in
        getApiKey q s = (if truthy_str (entered q kA kB)
                         then Some (entered q kA kB) else None)
        /\ getApiKey q (switch_mode (lit "local") s) = None).
Proof.
  intros b'. split; [|split; [|split; [|split]]].
  - unfold other_for, storage_for. destruct (str_eqb m (lit "session")); discriminate.
  - intros q. apply onSave_clears_other.
  - intros q. subst b'. rewrite getApiKey_selected, onSave_selected.
    split; [reflexivity | apply onSave_target].
  - intros q b1 b2 Hmode Hsel.
    assert (Hm : storedMode b2 = storedMode b1).
    { unfold storedMode, getItem. cbn [area]. by rewrite Hmode. }
    rewrite !getApiKey_selected, Hm. exact Hsel.
  - intros q s. split.
    + subst s. rewrite getApiKey_selected, onSave_selected. apply onSave_target.
    + pose proof (onSave_clears_other p (lit "session") kA kB b q) as Hc.
      fold s in Hc. change (other_for (lit "session")) with ref_localStorage in Hc.
      cbn [area] in Hc.
      unfold getApiKey, storedMode, switch_mode, getItem, setItem.
      cbn [area localStorage sessionStorage].
      rewrite lookup_insert_eq.
      change (storage_for (or_else (Some (lit "local")) (lit "local")))
        with ref_localStorage.
      cbn [area localStorage].
      rewrite lookup_insert_ne; [exact Hc | destruct q; discriminate].
Qed.

Lemma key_store_mutual_exclusion_witness :
  localStorage session_saved !! LOCAL_KEYS.openai = None
  /\ getApiKey openai session_saved = Some (lit "x")
  /\ getApiKey openai
       (mkBrowser {[ LOCAL_KEYS.storeMode := lit "session" ]} (sessionStorage session_saved))
     = Some (lit "x")
  /\ getApiKey openai (switch_mode (lit "local") session_saved) = None.
Proof.
  destruct (key_store_mutual_exclusion openai (lit "session") (lit "x") [] sample_browser)
    as (_ & Hother & Hread & Hindep & Hswitch).
  split; [exact (Hother openai)|].
  split; [exact (proj2 (Hread openai))|].
  split; [|exact (proj2 (Hswitch openai))].
  transitivity (getApiKey openai session_saved); [|exact (proj2 (Hread openai))].
  symmetry. apply Hindep; vm_compute; reflexivity.
Defined.

(** C3. Round trip through the key store: saving provider gemini in local
    mode with an empty OpenAI key and the Gemini key "g-key" makes
    [getStoredProvider] return gemini, [getApiKey gemini] return "g-key" and
    [getApiKey openai] return nothing, whatever the storage held before. *)
Theorem save_round_trip (b : Browser) :
  let b' := fst (onSave gemini (lit "local") [] (lit "g-key") b) in
  getStoredProvider b' = gemini
  /\ getApiKey gemini b' = Some (lit "g-key")
  /\ getApiKey openai b' = None.
Proof.
  intros b'. subst b'. split; [|split].
  - unfold getStoredProvider, onSave, getItem. cbn. by simplify_map_eq.
  - rewrite getApiKey_selected, onSave_selected. by rewrite onSave_target.
  - rewrite getApiKey_selected, onSave_selected. by rewrite onSave_target.
Qed.

(** C9. [getStoredProvider] returns gemini exactly when the persisted
    selection is the string "gemini"; when it is absent, empty, or any other
    string (recognised or not) it returns openai. *)
Theorem getStoredProvider_default (b : Browser) :
  (localStorage b !! LOCAL_KEYS.provider = Some (lit "gemini") ->
   getStoredProvider b = gemini)
  /\ (localStorage b !! LOCAL_KEYS.provider <> Some (lit "gemini") ->
      getStoredProvider b = openai)
  /\ (localStorage b !! LOCAL_KEYS.provider = None -> getStoredProvider b = openai)
  /\ (getStoredProvider b = gemini ->
      localStorage b !! LOCAL_KEYS.provider = Some (lit "gemini")).
Proof.
  unfold getStoredProvider, getItem. cbn [area].
  destruct (localStorage b !! LOCAL_KEYS.provider) as [v|] eqn:Hv.
  - destruct (str_eqb (or_else (Some v) (lit "openai")) (lit "gemini")) eqn:E.
    + apply str_eqb_true in E.
      assert (v = lit "gemini") as ->.
      { cbn in E. destruct (truthy_str v); [exact E | discriminate E]. }
      repeat split; try reflexivity; try congruence.
    + apply str_eqb_false in E.
      repeat split; try discriminate; try reflexivity.
      intros [= ->]. exfalso. apply E. reflexivity.
  - cbn. repeat split; try discriminate; reflexivity.
Qed.

Lemma getStoredProvider_default_witness :
  getStoredProvider (mkBrowser {[ LOCAL_KEYS.provider := lit "gemini" ]} ∅) = gemini
  /\ getStoredProvider (mkBrowser {[ LOCAL_KEYS.provider := lit "claude" ]} ∅) = openai
  /\ getStoredProvider (mkBrowser ∅ ∅) = openai.
Proof.
  split; [|split].
  - apply (proj1 (getStoredProvider_default
                    (mkBrowser {[ LOCAL_KEYS.provider := lit "gemini" ]} ∅))).
    reflexivity.
  - apply (proj1 (proj2 (getStoredProvider_default
                    (mkBrowser {[ LOCAL_KEYS.provider := lit "claude" ]} ∅)))).
    cbn [localStorage]. rewrite lookup_singleton_eq.
    intros H. vm_compute in H. discriminate H.
  - apply (proj1 (proj2 (proj2 (getStoredProvider_default (mkBrowser ∅ ∅))))).
    reflexivity.
Defined.

End KeyStore.


(* ===================================================================== *)
(** ** Laws of the effect monad                                           *)
(* ===================================================================== *)

Section Effects.

Import SettingsDialog Index Spec.

Context {A B : Type}.

Lemma trace_bind (m : Eff A) (k : A -> Eff B) :
  trace (bind m k)
  = trace m ++ match completion m with
               | Return a => trace (k a)
               | Throw _ => []
               end.
Proof.
  destruct m as [t [a|e]]; cbn.
  - destruct (k a); reflexivity.
  - by rewrite app_nil_r.
Qed.

Lemma completion_bind (m : Eff A) (k : A -> Eff B) :
  completion (bind m k)
  = match completion m with
    | Return a => completion (k a)
    | Throw e => Throw e
    end.
Proof. destruct m as [t [a|e]]; cbn; [destruct (k a)|]; reflexivity. Qed.

Lemma trace_try_finally (m : Eff A) (fin : Eff unit) :
  trace (try_finally m fin) = trace m ++ trace fin.
Proof. destruct m as [t c], fin as [t' [[]|e]]; reflexivity. Qed.

Lemma completion_try_finally (m : Eff A) (fin : Eff unit) :
  completion (try_finally m fin)
  = match completion fin with
    | Return _ => completion m
    | Throw e => Throw e
    end.
Proof. destruct m as [t c], fin as [t' [[]|e]]; reflexivity. Qed.

Lemma trace_try_catch (m : Eff A) (h : Exn -> Eff A) :
  trace (try_catch m h)
  = trace m ++ match completion m with
               | Return _ => []
               | Throw e => trace (h e)
               end.
Proof.
  destruct m as [t [a|e]]; cbn.
  - by rewrite app_nil_r.
  - destruct (h e); reflexivity.
Qed.

Lemma completion_try_catch (m : Eff A) (h : Exn -> Eff A) :
  completion (try_catch m h)
  = match completion m with
    | Return a => Return a
    | Throw e => completion (h e)
    end.
Proof. destruct m as [t [a|e]]; cbn; [|destruct (h e)]; reflexivity. Qed.

Lemma bind_ret_l (a : A) (k : A -> Eff B) : bind (ret a) k = k a.
Proof. unfold bind, ret. by destruct (k a). Qed.

Lemma eff_eta (m : Eff A) : m = (trace m, completion m).
Proof. by destruct m. Qed.

End Effects.

Section Observations.

Import SettingsDialog Index Spec.

Lemma count_app p (t1 t2 : list Event) : count p (t1 ++ t2) = (count p t1 + count p t2)%nat.
Proof. unfold count. by rewrite List.filter_app, length_app. Qed.

Lemma requests_app (t1 t2 : list Event) : requests (t1 ++ t2) = requests t1 ++ requests t2.
Proof. unfold requests. apply omap_app. Qed.

Lemma silent_ret {A} (a : A) : silent (ret a).
Proof. reflexivity. Qed.

Lemma silent_throw {A} (e : Exn) : silent (@throw A e).
Proof. reflexivity. Qed.

Lemma silent_settle {A} (o : Exn + A) : silent (settle o).
Proof. by destruct o. Qed.

Lemma silent_bind {A B} (m : Eff A) (k : A -> Eff B) :
  silent m -> (forall a, silent (k a)) -> silent (bind m k).
Proof.
  unfold silent. intros Hm Hk. rewrite trace_bind, Hm.
  destruct (completion m); [apply Hk | reflexivity].
Qed.

Lemma silent_member k data : silent (member k data).
Proof. by destruct data. Qed.

Lemma silent_opt_trim_call v : silent (opt_trim_call v).
Proof.
  destruct v as [|[]]; try reflexivity.
  cbn. destruct (own _ _) as [[]|]; reflexivity.
Qed.

Lemma silent_trim_call v : silent (trim_call v).
Proof. by destruct v as [|[]]. Qed.

End Observations.

(* ===================================================================== *)
(** ** Provider clients and content fetcher                               *)
(* ===================================================================== *)

Section Network.

Import SettingsDialog Index Spec.

Variable pf : Platform.

Lemma silent_openai_text data : silent (openai_text data).
Proof.
  apply silent_bind; [apply silent_member|]. intros choices.
  apply silent_bind; [apply silent_opt_trim_call|]. intros. apply silent_ret.
Qed.

Lemma silent_gemini_text data : silent (gemini_text data).
Proof.
  apply silent_bind; [apply silent_member|]. intros candidates.
  apply silent_trim_call.
Qed.

(** After the request, a provider call performs no further event until
    its [finally]. *)
Lemma silent_after_fetch {A} (label : string) (extract : JSON -> Eff A)
    (res : Response) :
  (forall data, silent (extract data)) ->
  silent (if negb (ok res)
          then throw (JsError (lit label ++ decimal (status res)))
          else do data <- settle (json res); extract data).
Proof.
  intros Hx. destruct (negb (ok res)); [apply silent_throw|].
  apply silent_bind; [apply silent_settle | exact Hx].
Qed.

(** The events of a provider call are the same on every path: the timer is
    armed, the request is sent, the timer is disarmed. *)
Lemma callOpenAI_trace apiKey prompt :
  trace (callOpenAI pf apiKey prompt)
  = [ev_setTimeout 30000; ev_fetch (openai_request apiKey prompt); ev_clearTimeout].
Proof.
  unfold callOpenAI. rewrite trace_bind. cbn [setTimeout emit trace completion fst snd].
  rewrite trace_try_finally, trace_bind.
  unfold fetch at 1. rewrite trace_bind. cbn [emit trace completion fst snd].
  rewrite silent_settle, app_nil_r.
  destruct (completion (fetch pf (openai_request apiKey prompt))) as [res|e];
    [|reflexivity].
  rewrite (silent_after_fetch "OpenAI error " openai_text res silent_openai_text).
  reflexivity.
Qed.

Lemma callGemini_trace apiKey prompt :
  trace (callGemini pf apiKey prompt)
  = [ev_setTimeout 30000; ev_fetch (gemini_request apiKey prompt); ev_clearTimeout].
Proof.
  unfold callGemini. rewrite trace_bind. cbn [setTimeout emit trace completion fst snd].
  rewrite trace_try_finally, trace_bind.
  unfold fetch at 1. rewrite trace_bind. cbn [emit trace completion fst snd].
  rewrite silent_settle, app_nil_r.
  destruct (completion (fetch pf (gemini_request apiKey prompt))) as [res|e];
    [|reflexivity].
  rewrite (silent_after_fetch "Gemini error " gemini_text res silent_gemini_text).
  reflexivity.
Qed.

Lemma callProvider_trace provider providerKey prompt :
  trace (callProvider pf provider providerKey prompt)
  = [ev_setTimeout 30000;
     ev_fetch (provider_request provider (assert_key providerKey) prompt);
     ev_clearTimeout].
Proof. destruct provider; [apply callOpenAI_trace | apply callGemini_trace]. Qed.

(** Both provider clients disarm their timer exactly once, whatever the
    network does. *)
Lemma provider_clients_disarm_once provider providerKey prompt :
  armed (trace (callProvider pf provider providerKey prompt)) = 1%nat
  /\ disarmed (trace (callProvider pf provider providerKey prompt)) = 1%nat.
Proof. rewrite callProvider_trace. split; reflexivity. Qed.

(** [tryFetchUrlContent], path by path. *)
Lemma tryFetchUrlContent_paths url :
  tryFetchUrlContent pf url
  = match new_URL pf url with
    | inl _ => ([], Return None)
    | inr u =>
      if includes http_schemes (protocol u) then
        match fetch_settles pf (content_request u) with
        | inl _ =>
          ([ev_setTimeout 8000; ev_fetch (content_request u)], Return None)
        | inr res =>
          ([ev_setTimeout 8000; ev_fetch (content_request u); ev_clearTimeout],
           Return (if ok res
                   then match text res with
                        | inl _ => None
                        | inr html => Some (strip_html html)
                        end
                   else None))
        end
      else ([], Return None)
    end.
Proof.
  unfold tryFetchUrlContent, fetch.
  destruct (new_URL pf url) as [e|u]; [reflexivity|].
  cbn [settle bind ret throw try_catch app].
  destruct (includes http_schemes (protocol u)); [|reflexivity].
  cbn [negb setTimeout clearTimeout emit bind app].
  destruct (fetch_settles pf (content_request u)) as [e|res]; [reflexivity|].
  cbn [settle bind ret throw try_catch app emit].
  destruct (ok res); [|reflexivity].
  cbn [negb]. destruct (text res) as [e|html]; reflexivity.
Qed.

End Network.

Section NetworkClaims.

Import SettingsDialog Index Spec.

(** C2, at the content fetcher.  When the URL is http(s) and the request
    is rejected (network failure, or the abort fired by the timer after
    8000 ms), [tryFetchUrlContent] has armed its timer once and never
    disarms it: its [clearTimeout] is reached only when [fetch] resolves.
    The provider clients disarm theirs on every path
    ([provider_clients_disarm_once]). *)
Theorem tryFetchUrlContent_timer_left_armed
    (pf : Platform) (url : jsstring) (u : URL) (e : Exn) :
  new_URL pf url = inr u ->
  includes http_schemes (protocol u) = true ->
  fetch_settles pf (content_request u) = inl e ->
  trace (tryFetchUrlContent pf url)
  = [ev_setTimeout 8000; ev_fetch (content_request u)]
  /\ armed (trace (tryFetchUrlContent pf url)) = 1%nat
  /\ disarmed (trace (tryFetchUrlContent pf url)) = 0%nat.
Proof.
  intros Hu Hs He. rewrite tryFetchUrlContent_paths, Hu, Hs, He.
  repeat split.
Qed.

Lemma tryFetchUrlContent_timer_left_armed_witness :
  armed (trace (tryFetchUrlContent offline (lit "https://example.com"))) = 1%nat
  /\ disarmed (trace (tryFetchUrlContent offline (lit "https://example.com"))) = 0%nat.
Proof.
  refine (proj2 (tryFetchUrlContent_timer_left_armed offline (lit "https://example.com")
            (mkURL (lit "https:") (lit "https://example.com"))
            (PlatformError "TypeError" (lit "Failed to fetch")) _ _ _));
    reflexivity.
Defined.

(** On the paths where [fetch] resolves, the fetcher disarms once. *)
Lemma tryFetchUrlContent_disarms_when_resolved
    (pf : Platform) (url : jsstring) (u : URL) (res : Response) :
  new_URL pf url = inr u ->
  includes http_schemes (protocol u) = true ->
  fetch_settles pf (content_request u) = inr res ->
  armed (trace (tryFetchUrlContent pf url)) = 1%nat
  /\ disarmed (trace (tryFetchUrlContent pf url)) = 1%nat.
Proof.
  intros Hu Hs Hr. rewrite tryFetchUrlContent_paths, Hu, Hs, Hr. split; reflexivity.
Qed.

Lemma includes_http_schemes (p : jsstring) :
  includes http_schemes p = false <-> p <> lit "http:" /\ p <> lit "https:".
Proof.
  unfold includes, http_schemes. cbn [existsb].
  rewrite orb_false_r, orb_false_iff, !str_eqb_false. reflexivity.
Qed.

(** C7. The content fetcher never throws: for every platform and every URL
    it returns a text or nothing.  It returns a text only when the URL
    parsed with an http(s) protocol, the request resolved with a 2xx status
    and the body was read, and the text is then the stripped body.  When the
    URL does not parse, or its protocol is neither "http:" nor "https:", it
    returns nothing and its trace is empty: no timer, no network request. *)
Theorem tryFetchUrlContent_best_effort (pf : Platform) (url : jsstring) :
  (exists r, completion (tryFetchUrlContent pf url) = Return r)
  /\ (forall t, completion (tryFetchUrlContent pf url) = Return (Some t) ->
        exists u res html,
          new_URL pf url = inr u
          /\ includes http_schemes (protocol u) = true
          /\ fetch_settles pf (content_request u) = inr res
          /\ ok res = true /\ text res = inr html /\ t = strip_html html)
  /\ ((forall u, new_URL pf url = inr u ->
         protocol u <> lit "http:" /\ protocol u <> lit "https:") ->
      tryFetchUrlContent pf url = ([], Return None)
      /\ requests (trace (tryFetchUrlContent pf url)) = []).
Proof.
  rewrite tryFetchUrlContent_paths.
  destruct (new_URL pf url) as [e|u] eqn:Hu.
  { split; [by eexists|]. split; [discriminate|]. by intros _. }
  destruct (includes http_schemes (protocol u)) eqn:Hs.
  - destruct (fetch_settles pf (content_request u)) as [e|res] eqn:Hf.
    + split; [by eexists|]. split; [discriminate|].
      intros H. specialize (H u eq_refl). apply includes_http_schemes in H. congruence.
    + split; [by eexists|]. split.
      * cbn [completion snd]. intros t Ht.
        destruct (ok res) eqn:Hok; [|discriminate].
        destruct (text res) as [e|html] eqn:Hh; [discriminate|].
        injection Ht as <-. by exists u, res, html.
      * intros H. specialize (H u eq_refl). apply includes_http_schemes in H. congruence.
  - split; [by eexists|]. split; [discriminate|]. by intros _.
Qed.

Lemma tryFetchUrlContent_best_effort_witness :
  tryFetchUrlContent (answering (html_response 200 (lit "<p>never read</p>")))
    (lit "ftp://example.com") = ([], Return None)
  /\ completion (tryFetchUrlContent (answering (html_response 200 (lit "<p>Hi  <b>you</b></p>")))
       (lit "https://example.com")) = Return (Some (lit "Hi you")).
Proof.
  split.
  - apply (tryFetchUrlContent_best_effort
             (answering (html_response 200 (lit "<p>never read</p>")))
             (lit "ftp://example.com")).
    intros u Hu. vm_compute in Hu. injection Hu as <-. split; discriminate.
  - vm_compute. reflexivity.
Defined.

End NetworkClaims.

Section ProviderContract.

Import SettingsDialog Index Spec.

Variable pf : Platform.

(** [callOpenAI], path by path. *)
Lemma callOpenAI_paths apiKey prompt :
  callOpenAI pf apiKey prompt
  = ([ev_setTimeout 30000; ev_fetch (openai_request apiKey prompt); ev_clearTimeout],
     match fetch_settles pf (openai_request apiKey prompt) with
     | inl e => Throw e
     | inr res =>
       if ok res then
         match json res with
         | inl e => Throw e
         | inr data => completion (openai_text data)
         end
       else Throw (JsError (lit "OpenAI error " ++ decimal (status res)))
     end).
Proof.
  rewrite (eff_eta (callOpenAI pf apiKey prompt)), callOpenAI_trace. f_equal.
  unfold callOpenAI. rewrite completion_bind. cbn [setTimeout emit completion snd].
  rewrite completion_try_finally. cbn [clearTimeout emit completion snd].
  rewrite completion_bind. unfold fetch. rewrite completion_bind.
  cbn [emit completion snd].
  destruct (fetch_settles pf (openai_request apiKey prompt)) as [e|res]; [reflexivity|].
  cbn [settle ret completion snd].
  destruct (ok res); cbn [negb]; [|reflexivity].
  rewrite completion_bind. by destruct (json res).
Qed.

(** [callGemini], path by path. *)
Lemma callGemini_paths apiKey prompt :
  callGemini pf apiKey prompt
  = ([ev_setTimeout 30000; ev_fetch (gemini_request apiKey prompt); ev_clearTimeout],
     match fetch_settles pf (gemini_request apiKey prompt) with
     | inl e => Throw e
     | inr res =>
       if ok res then
         match json res with
         | inl e => Throw e
         | inr data => completion (gemini_text data)
         end
       else Throw (JsError (lit "Gemini error " ++ decimal (status res)))
     end).
Proof.
  rewrite (eff_eta (callGemini pf apiKey prompt)), callGemini_trace. f_equal.
  unfold callGemini. rewrite completion_bind. cbn [setTimeout emit completion snd].
  rewrite completion_try_finally. cbn [clearTimeout emit completion snd].
  rewrite completion_bind. unfold fetch. rewrite completion_bind.
  cbn [emit completion snd].
  destruct (fetch_settles pf (gemini_request apiKey prompt)) as [e|res]; [reflexivity|].
  cbn [settle ret completion snd].
  destruct (ok res); cbn [negb]; [|reflexivity].
  rewrite completion_bind. by destruct (json res).
Qed.

Lemma ok_2xx (res : Response) : ok res = true <-> 200 <= status res <= 299.
Proof. unfold ok. rewrite andb_true_iff, !N.leb_le. reflexivity. Qed.

Lemma read_step_member k v : read_step (member_ k) v = opt_field (lit k) v.
Proof. by destruct v as [|[]]. Qed.

Lemma read_step_element0 v : read_step element0 v = opt_index0 v.
Proof. by destruct v as [|[]]. Qed.

(** The optional chain of [callOpenAI] reads the path of the wire
    contract, below a body that is not null. *)
Lemma openai_text_reads_path data :
  data <> JNull ->
  openai_text data
  = do content <- opt_trim_call (read_path openai_path data); ret (or_else content []).
Proof.
  intros Hd. unfold openai_text, read_path, openai_path. cbn [fold_left].
  rewrite !read_step_member, read_step_element0.
  destruct data; try congruence; cbn [member]; by rewrite bind_ret_l.
Qed.

Lemma gemini_text_reads_path data :
  data <> JNull ->
  gemini_text data
  = trim_call (lor (read_path gemini_path data) (val (JStr []))).
Proof.
  intros Hd. unfold gemini_text, read_path, gemini_path. cbn [fold_left].
  rewrite !read_step_member, !read_step_element0.
  destruct data; try congruence; cbn [member]; by rewrite bind_ret_l.
Qed.

Lemma or_else_Some_nil (s : jsstring) : or_else (Some s) [] = s.
Proof. by destruct s. Qed.

Lemma openai_text_string data s :
  data <> JNull -> read_path openai_path data = val (JStr s) ->
  completion (openai_text data) = Return (trim s).
Proof.
  intros Hd Hp. rewrite openai_text_reads_path, Hp by exact Hd.
  cbn [opt_trim_call]. rewrite bind_ret_l. cbn [ret completion snd].
  by rewrite or_else_Some_nil.
Qed.

Lemma openai_text_absent data :
  data <> JNull -> nullish (read_path openai_path data) = true ->
  completion (openai_text data) = Return [].
Proof.
  intros Hd Hp. rewrite openai_text_reads_path by exact Hd.
  destruct (read_path openai_path data) as [|[]]; try discriminate; reflexivity.
Qed.

Lemma gemini_text_string data s :
  data <> JNull -> read_path gemini_path data = val (JStr s) ->
  completion (gemini_text data) = Return (trim s).
Proof.
  intros Hd Hp. rewrite gemini_text_reads_path, Hp by exact Hd.
  by destruct s.
Qed.

Lemma gemini_text_absent data :
  data <> JNull -> nullish (read_path gemini_path data) = true ->
  completion (gemini_text data) = Return [].
Proof.
  intros Hd Hp. rewrite gemini_text_reads_path by exact Hd.
  destruct (read_path gemini_path data) as [|[]]; try discriminate; reflexivity.
Qed.

End ProviderContract.

Section ProviderContractClaim.

Import SettingsDialog Index Spec.



End ProviderContractClaim.

(* ===================================================================== *)
(** ** Orchestrator                                                       *)
(* ===================================================================== *)

Section Normalisation.

Import SettingsDialog Index Spec.

Lemma span_len_all (p : N -> bool) (s : jsstring) :
  Forall (fun c => p c = true) s -> span_len p s = length s.
Proof.
  induction 1 as [|c r Hc _ IH]; [reflexivity|].
  cbn. by rewrite Hc, IH.
Qed.

Lemma replace_skip_past m rep (s : jsstring) (k : nat) :
  (length s <= k)%nat -> replace_skip m rep k s = [].
Proof.
  revert k. induction s as [|c r IH]; intros k Hk; [reflexivity|].
  cbn in Hk. destruct k as [|k]; [lia|]. cbn. apply IH. lia.
Qed.

(** A topic made of white space only is empty once normalised. *)
Lemma cleanTopic_blank (topic : jsstring) :
  Forall (fun c => is_space c = true) topic -> cleanTopic topic = [].
Proof.
  intros Hall. unfold cleanTopic, replace_global.
  destruct topic as [|c r]; [reflexivity|].
  cbn [replace_skip]. unfold re_spaces.
  rewrite (span_len_all _ _ Hall). cbn [length].
  rewrite replace_skip_past by lia. reflexivity.
Qed.

End Normalisation.

Section Generate.

Import SettingsDialog Index Spec.

Variable pf : Platform.

Lemma truthy_str_nil (s : jsstring) : truthy_str s = false <-> s = [].
Proof. destruct s; cbn; split; congruence. Qed.

Lemma onGenerate_empty provider providerKey topic length :
  cleanTopic topic = [] ->
  onGenerate pf provider providerKey topic length
  = ([ev_toast (toast_error (lit "Please enter a topic or keyword."))], Return tt).
Proof. intros H. unfold onGenerate. rewrite H. reflexivity. Qed.

Lemma onGenerate_too_long provider providerKey topic length :
  120 < len (cleanTopic topic) ->
  onGenerate pf provider providerKey topic length
  = ([ev_toast (toast_error (lit "Topic is too long (max 120 characters)."))], Return tt).
Proof.
  intros H. unfold onGenerate.
  destruct (truthy_str (cleanTopic topic)) eqn:Ht.
  - cbn [negb]. apply N.ltb_lt in H. rewrite H. reflexivity.
  - apply truthy_str_nil in Ht. rewrite Ht in H. discriminate H.
Qed.

Lemma onGenerate_no_key provider providerKey topic length :
  falsy providerKey = true ->
  cleanTopic topic <> [] -> len (cleanTopic topic) <= 120 ->
  onGenerate pf provider providerKey topic length
  = ([ev_toast (toast_error (lit "Add your API key in Settings (top right)."))], Return tt).
Proof.
  intros Hk Hne Hlen. unfold onGenerate, ensureKey.
  destruct (truthy_str (cleanTopic topic)) eqn:Ht;
    [|apply truthy_str_nil in Ht; contradiction].
  cbn [negb]. apply N.ltb_ge in Hlen. rewrite Hlen, Hk. reflexivity.
Qed.

Lemma onSummarize_no_key provider providerKey sourceText sourceUrl :
  falsy providerKey = true ->
  onSummarize pf provider providerKey sourceText sourceUrl
  = ([ev_toast (toast_error (lit "Add your API key in Settings (top right)."))], Return tt).
Proof. intros Hk. unfold onSummarize, ensureKey. rewrite Hk. reflexivity. Qed.

End Generate.

Section OrchestratorClaims.

Import SettingsDialog Index Spec.

(** C4. When the normalised topic (white space collapsed, trimmed) is empty,
    which is the case of every topic made of white space only, or when it
    is longer than 120 code units, [onGenerate] reports a validation error
    and does nothing else: no network request is issued, whatever the
    provider and the key. *)
Theorem onGenerate_rejects_invalid_topic
    (pf : Platform) (provider : Provider) (providerKey : option jsstring)
    (topic length : jsstring) :
  (cleanTopic topic = [] \/ 120 < len (cleanTopic topic) ->
   fails_with ValidationError (onGenerate pf provider providerKey topic length)
   /\ requests (trace (onGenerate pf provider providerKey topic length)) = [])
  /\ (Forall (fun c => is_space c = true) topic -> cleanTopic topic = []).
Proof.
  split; [|apply cleanTopic_blank].
  intros [He|Hl].
  - rewrite (onGenerate_empty pf _ _ _ _ He). split; [|reflexivity].
    eexists. split; [|reflexivity]. cbn. tauto.
  - rewrite (onGenerate_too_long pf _ _ _ _ Hl). split; [|reflexivity].
    eexists. split; [|reflexivity]. cbn. tauto.
Qed.

Lemma onGenerate_rejects_invalid_topic_witness :
  fails_with ValidationError
    (onGenerate offline openai (Some (lit "sk-1")) (lit "  ") (lit "medium"))
  /\ fails_with ValidationError
       (onGenerate offline gemini (Some (lit "AIza")) (repeat 97 121) (lit "long")).
Proof.
  split.
  - apply (onGenerate_rejects_invalid_topic offline openai (Some (lit "sk-1"))
             (lit "  ") (lit "medium")).
    left. reflexivity.
  - apply (onGenerate_rejects_invalid_topic offline gemini (Some (lit "AIza"))
             (repeat 97 121) (lit "long")).
    right. vm_compute. reflexivity.
Defined.

End OrchestratorClaims.

Section MissingKeyClaim.

Import SettingsDialog Lifecycle Index Spec Page.

(** C5 as stated fails, in two ways.  Without a key and with an empty
    topic, [onGenerate] reports the validation error of the topic, not the
    missing key.  And the key the handlers test is the one the page read
    when it loaded: on a page loaded while a key was saved, once that key
    has been cleared from the dialog no key is configured for the active
    provider, yet [onGenerate] still sends its request with the old key and
    reports no configuration error. *)
Lemma handlers_without_configured_key :
  (onGenerate offline openai None [] (lit "medium")
   = ([ev_toast (toast_error (lit "Please enter a topic or keyword."))], Return tt)
   /\ ~ fails_with ConfigError (onGenerate offline openai None [] (lit "medium")))
  /\ let page := rerender (mount key_saved) key_cleared in
     activeProvider page = openai
     /\ getStoredProvider key_cleared = openai
     /\ getApiKey openai key_cleared = None
     /\ providerKey page = Some (lit "sk-1")
     /\ requests (trace (onGenerate offline (activeProvider page) (providerKey page)
                           (lit "tea") (lit "medium")))
        = [openai_request (lit "sk-1")
             (generate_prompt offline (lit "tea") (own_number 700))]
     /\ ~ fails_with ConfigError
            (onGenerate offline (activeProvider page) (providerKey page)
               (lit "tea") (lit "medium")).
Proof.
  split; [split; [reflexivity|]|].
  - intros (msg & Hin & Heq). cbn in Hin. destruct Hin as [<-|[]].
    vm_compute in Heq. discriminate Heq.
  - intros page.
    split; [reflexivity|]. split; [reflexivity|]. split; [reflexivity|].
    split; [reflexivity|]. split; [vm_compute; reflexivity|].
    intros (msg & Hin & Heq). vm_compute in Hin.
    destruct Hin as [<-|[]]. vm_compute in Heq. discriminate Heq.
Qed.

(** C5, amended.  When the page holds no key for the active provider, its
    memoised [providerKey] being null or empty, which is the case of every
    page loaded from a storage in which no key, or an empty one, is
    configured for the stored provider: [onSummarize] reports a
    configuration error; [onGenerate] reports a configuration error when
    the normalised topic is valid, and the validation error otherwise, the
    topic being checked first; and neither handler issues a network
    request. *)
Theorem no_key_no_network
    (pf : Platform) (b : Browser) (page : IndexState) :
  falsy (providerKey page) = true
  \/ (page = mount b /\ falsy (getApiKey (getStoredProvider b) b) = true) ->
  (forall sourceText sourceUrl,
     fails_with ConfigError
       (onSummarize pf (activeProvider page) (providerKey page) sourceText sourceUrl)
     /\ requests (trace (onSummarize pf (activeProvider page) (providerKey page)
                           sourceText sourceUrl)) = [])
  /\ (forall topic length,
        (cleanTopic topic <> [] -> len (cleanTopic topic) <= 120 ->
         fails_with ConfigError
           (onGenerate pf (activeProvider page) (providerKey page) topic length))
        /\ (cleanTopic topic = [] \/ 120 < len (cleanTopic topic) ->
            fails_with ValidationError
              (onGenerate pf (activeProvider page) (providerKey page) topic length))
        /\ requests (trace (onGenerate pf (activeProvider page) (providerKey page)
                              topic length)) = []).
Proof.
  intros Hpage.
  assert (Hk : falsy (providerKey page) = true).
  { destruct Hpage as [Hk|[-> Hk]]; [exact Hk|].
    unfold mount, render_with, first_render. cbn [activeProvider providerKey].
    case_decide as Hp; [rewrite <- Hp|]; exact Hk. }
  clear Hpage. split.
  - intros sourceText sourceUrl. rewrite onSummarize_no_key by exact Hk.
    split; [|reflexivity]. eexists. split; [|reflexivity]. cbn. tauto.
  - intros topic length. split; [|split].
    + intros Hne Hlen. rewrite onGenerate_no_key by assumption.
      eexists. split; [|reflexivity]. cbn. tauto.
    + intros [He|Hl].
      * rewrite (onGenerate_empty pf _ _ _ _ He).
        eexists. split; [|reflexivity]. cbn. tauto.
      * rewrite (onGenerate_too_long pf _ _ _ _ Hl).
        eexists. split; [|reflexivity]. cbn. tauto.
    + destruct (cleanTopic topic) as [|c r] eqn:Ht.
      { by rewrite onGenerate_empty. }
      destruct (N.lt_ge_cases 120 (len (cleanTopic topic))) as [Hl|Hl].
      { by rewrite onGenerate_too_long. }
      rewrite onGenerate_no_key; [reflexivity | exact Hk | congruence | exact Hl].
Qed.

Lemma no_key_no_network_witness :
  fails_with ConfigError
    (onSummarize offline openai None (lit "some text") [])
  /\ fails_with ConfigError
       (onGenerate offline gemini (Some []) (lit "Sustainable Travel") (lit "short"))
  /\ fails_with ConfigError
       (onGenerate offline (activeProvider (mount key_cleared))
          (providerKey (mount key_cleared)) (lit "Sustainable Travel") (lit "short"))
  /\ requests (trace (onSummarize offline (activeProvider (mount nothing_saved))
                        (providerKey (mount nothing_saved)) long_text []))
     = [].
Proof.
  split; [|split; [|split]].
  - apply (no_key_no_network offline nothing_saved (mkIndexState openai None)).
    left. reflexivity.
  - apply (no_key_no_network offline nothing_saved (mkIndexState gemini (Some []))).
    + left. reflexivity.
    + vm_compute. discriminate.
    + vm_compute. discriminate.
  - apply (no_key_no_network offline key_cleared (mount key_cleared)).
    + right. split; reflexivity.
    + vm_compute. discriminate.
    + vm_compute. discriminate.
  - apply (no_key_no_network offline nothing_saved (mount nothing_saved)).
    right. split; reflexivity.
Defined.

End MissingKeyClaim.

Section Summarize.

Import SettingsDialog Index Spec.

Variable pf : Platform.

(** The events of the last part of [onSummarize]: the two setters, the
    provider call, then the result or the error report, then the busy flag
    is cleared. *)
Lemma summarize_text_trace provider providerKey text :
  exists tail,
    trace (summarize_text pf provider providerKey text)
    = [ev_setSummarizing true; ev_setSummary [];
       ev_setTimeout 30000;
       ev_fetch (provider_request provider (assert_key providerKey) (summarize_prompt text));
       ev_clearTimeout] ++ tail ++ [ev_setSummarizing false]
    /\ requests tail = [] /\ warnings tail = 0%nat.
Proof.
  unfold summarize_text.
  rewrite !trace_bind. cbn [emit trace completion fst snd].
  rewrite trace_try_finally, trace_try_catch, trace_bind, completion_bind.
  rewrite callProvider_trace.
  destruct (completion (callProvider pf provider providerKey (summarize_prompt text)))
    as [result|e].
  - exists [ev_setSummary result]. cbn. repeat split.
  - exists [ev_console_error e;
            ev_toast (toast_error (message_or pf e "Summarization failed"))].
    cbn. repeat split.
Qed.

Lemma summarize_text_requests provider providerKey text :
  requests (trace (summarize_text pf provider providerKey text))
  = [provider_request provider (assert_key providerKey) (summarize_prompt text)].
Proof.
  destruct (summarize_text_trace provider providerKey text) as (tail & -> & Hr & _).
  rewrite !requests_app, Hr. reflexivity.
Qed.

Lemma summarize_text_warnings provider providerKey text :
  warnings (trace (summarize_text pf provider providerKey text)) = 0%nat.
Proof.
  destruct (summarize_text_trace provider providerKey text) as (tail & -> & _ & Hw).
  unfold warnings in *. rewrite !count_app, Hw. reflexivity.
Qed.

(** [onSummarize] with a key and pasted text: the URL block is skipped and
    the text goes through the truncation step to the provider. *)
Lemma onSummarize_pasted provider providerKey sourceText sourceUrl :
  falsy providerKey = false -> trim sourceText <> [] ->
  onSummarize pf provider providerKey sourceText sourceUrl
  = do text <- truncate_text (trim sourceText);
    summarize_text pf provider providerKey text.
Proof.
  intros Hk Hne. unfold onSummarize, ensureKey, resolve_source. rewrite Hk.
  destruct (truthy_str (trim sourceText)) eqn:Ht;
    [|apply truthy_str_nil in Ht; contradiction].
  cbn [negb andb]. rewrite !bind_ret_l. cbn [negb]. rewrite Ht. reflexivity.
Qed.

Lemma len_slice0 (n : N) (s : jsstring) : n <= len s -> len (slice0 n s) = n.
Proof.
  unfold len, slice0. intros H. rewrite length_take. lia.
Qed.

End Summarize.

Section SummarizeClaim.

Import SettingsDialog Lifecycle Index Spec Page.

(** C6 as stated fails: without a key, a source text of 15000 code units
    is neither truncated nor warned about; [onSummarize] reports the
    missing key and returns.  A key configured in the storage is not
    enough either: the key the handler tests is the one the page read when
    it loaded, so on a page loaded before any key was saved the same
    happens after a key has been saved from the dialog. *)
Lemma onSummarize_long_text_without_key :
  MAX_TEXT < len (trim long_text)
  /\ (onSummarize offline openai None long_text []
      = ([ev_toast (toast_error (lit "Add your API key in Settings (top right)."))],
         Return tt)
      /\ warnings (trace (onSummarize offline openai None long_text [])) = 0%nat
      /\ requests (trace (onSummarize offline openai None long_text [])) = [])
  /\ let page := rerender (mount nothing_saved) key_saved in
     activeProvider page = openai
     /\ getStoredProvider key_saved = openai
     /\ getApiKey openai key_saved = Some (lit "sk-1")
     /\ providerKey page = None
     /\ onSummarize offline (activeProvider page) (providerKey page) long_text []
        = ([ev_toast (toast_error (lit "Add your API key in Settings (top right)."))],
           Return tt)
     /\ warnings (trace (onSummarize offline (activeProvider page) (providerKey page)
                           long_text [])) = 0%nat.
Proof.
  split; [reflexivity|]. split; [repeat split|].
  intros page. repeat split.
Qed.

(** C6, amended.  When the page holds a key for the active provider, its
    memoised [providerKey] being a string that is not empty, which is the
    case of every page loaded from a storage in which such a key is
    configured for the stored provider: when the trimmed source text is
    longer than 12000 code units, [onSummarize] shows the truncation
    warning, once, and goes on with exactly the first 12000 code units of
    the trimmed text, which is the text of the prompt sent to the provider;
    when the trimmed text is not empty and at most 12000 code units long,
    it goes on with the whole trimmed text and shows no warning. *)
Theorem onSummarize_truncation
    (pf : Platform) (b : Browser) (page : IndexState)
    (sourceText sourceUrl : jsstring) :
  falsy (providerKey page) = false
  \/ (page = mount b /\ falsy (getApiKey (getStoredProvider b) b) = false) ->
  let text := trim sourceText in
  let run := onSummarize pf (activeProvider page) (providerKey page) sourceText sourceUrl in
  (MAX_TEXT < len text ->
   let cut := slice0 MAX_TEXT text in
   len cut = 12000
   /\ cut ++ drop (N.to_nat 12000) text = text
   /\ run = (emit (ev_toast (toast_warning
                (lit "Input truncated to prevent oversized requests."))) ;;
             summarize_text pf (activeProvider page) (providerKey page) cut)
   /\ requests (trace run)
      = [provider_request (activeProvider page) (assert_key (providerKey page))
           (summarize_prompt cut)]
   /\ warnings (trace run) = 1%nat)
  /\ (text <> [] -> len text <= MAX_TEXT ->
      run = summarize_text pf (activeProvider page) (providerKey page) text
      /\ requests (trace run)
         = [provider_request (activeProvider page) (assert_key (providerKey page))
              (summarize_prompt text)]
      /\ warnings (trace run) = 0%nat).
Proof.
  intros Hpage text run.
  assert (Hk : falsy (providerKey page) = false).
  { destruct Hpage as [Hk|[-> Hk]]; [exact Hk|].
    unfold mount, render_with, first_render. cbn [activeProvider providerKey].
    case_decide as Hp; [rewrite <- Hp|]; exact Hk. }
  clear Hpage. split.
  - intros Hlong cut.
    assert (Hne : text <> []).
    { intros E. subst text. rewrite E in Hlong. discriminate Hlong. }
    assert (Hrun : run = (emit (ev_toast (toast_warning
                (lit "Input truncated to prevent oversized requests."))) ;;
             summarize_text pf (activeProvider page) (providerKey page) cut)).
    { subst run. rewrite onSummarize_pasted by assumption.
      unfold truncate_text. fold text. apply N.ltb_lt in Hlong. rewrite Hlong.
      unfold bind at 1. cbn [emit bind ret app].
      destruct (summarize_text pf (activeProvider page) (providerKey page)
                  (slice0 MAX_TEXT text)) eqn:E.
      subst cut. rewrite E. reflexivity. }
    split; [apply len_slice0; unfold MAX_TEXT in *; lia|].
    split; [apply take_drop|].
    split; [exact Hrun|].
    rewrite Hrun, trace_bind. cbn [emit trace completion fst snd].
    split.
    + rewrite requests_app, summarize_text_requests. reflexivity.
    + unfold warnings. rewrite count_app.
      change (count is_warning
                (trace (summarize_text pf (activeProvider page) (providerKey page) cut)))
        with (warnings
                (trace (summarize_text pf (activeProvider page) (providerKey page) cut))).
      rewrite summarize_text_warnings. reflexivity.
  - intros Hne Hshort.
    assert (Hrun : run = summarize_text pf (activeProvider page) (providerKey page) text).
    { subst run. rewrite onSummarize_pasted by assumption.
      unfold truncate_text. fold text. apply N.ltb_ge in Hshort. rewrite Hshort.
      apply bind_ret_l. }
    split; [exact Hrun|]. rewrite Hrun.
    split; [apply summarize_text_requests | apply summarize_text_warnings].
Qed.

Lemma onSummarize_truncation_witness :
  requests (trace (onSummarize offline gemini (Some (lit "AIza")) (32 :: long_text) []))
  = [gemini_request (lit "AIza") (summarize_prompt (repeat 97 (N.to_nat 12000)))]
  /\ warnings (trace (onSummarize offline gemini (Some (lit "AIza")) (32 :: long_text) []))
     = 1%nat
  /\ warnings (trace (onSummarize offline openai (Some (lit "sk-1")) (lit " short text ") []))
     = 0%nat
  /\ requests (trace (onSummarize offline (activeProvider (mount key_saved))
                        (providerKey (mount key_saved)) (32 :: long_text) []))
     = [openai_request (lit "sk-1") (summarize_prompt (repeat 97 (N.to_nat 12000)))].
Proof.
  split; [|split; [|split]].
  - destruct (onSummarize_truncation offline nothing_saved
                (mkIndexState gemini (Some (lit "AIza"))) (32 :: long_text) []
                (or_introl eq_refl)) as [Hlong _].
    destruct (Hlong ltac:(vm_compute; reflexivity)) as (_ & _ & _ & Hreq & _).
    etrans; [exact Hreq|]. vm_compute. reflexivity.
  - destruct (onSummarize_truncation offline nothing_saved
                (mkIndexState gemini (Some (lit "AIza"))) (32 :: long_text) []
                (or_introl eq_refl)) as [Hlong _].
    apply (Hlong ltac:(vm_compute; reflexivity)).
  - destruct (onSummarize_truncation offline nothing_saved
                (mkIndexState openai (Some (lit "sk-1"))) (lit " short text ") []
                (or_introl eq_refl)) as [_ Hshort].
    apply (Hshort ltac:(vm_compute; discriminate) ltac:(vm_compute; discriminate)).
  - destruct (onSummarize_truncation offline key_saved (mount key_saved)
                (32 :: long_text) [] (or_intror (conj eq_refl eq_refl))) as [Hlong _].
    destruct (Hlong ltac:(vm_compute; reflexivity)) as (_ & _ & _ & Hreq & _).
    etrans; [exact Hreq|]. vm_compute. reflexivity.
Defined.

End SummarizeClaim.

Section Presets.

Import SettingsDialog Index Spec.

(** The three presets of the source. *)
Lemma words_for_presets :
  words_for (lit "short") = own_number 300
  /\ words_for (lit "medium") = own_number 700
  /\ words_for (lit "long") = own_number 1200.
Proof. repeat split. Qed.

(** A name that is neither a preset nor inherited falls back to the medium
    target. *)
Lemma words_for_fallback (length : jsstring) :
  assoc length LENGTH_PRESETS = None ->
  includes Object_prototype length = false ->
  words_for length = own_number 700.
Proof.
  intros Hown Hinh. unfold words_for, LENGTH_PRESETS_get.
  rewrite Hown, Hinh. reflexivity.
Qed.

(** For such a name [onGenerate] does what it does for "medium". *)
Lemma onGenerate_fallback pf provider providerKey topic (length : jsstring) :
  assoc length LENGTH_PRESETS = None ->
  includes Object_prototype length = false ->
  onGenerate pf provider providerKey topic length
  = onGenerate pf provider providerKey topic (lit "medium").
Proof.
  intros Hown Hinh. unfold onGenerate.
  rewrite (words_for_fallback length Hown Hinh).
  rewrite (proj1 (proj2 words_for_presets)). reflexivity.
Qed.

(** C10, at an inherited name.  "constructor" is not one of the three
    presets, yet [LENGTH_PRESETS["constructor"]] is not undefined: the
    object literal inherits that member, the [??] keeps it, and the prompt
    carries the text of the built-in where the word count should be,
    instead of 700. *)
Theorem words_for_inherited_name (pf : Platform) (topic : jsstring) :
  assoc (lit "constructor") LENGTH_PRESETS = None
  /\ words_for (lit "constructor") = inherited (lit "constructor")
  /\ words_for (lit "constructor") <> own_number 700
  /\ generate_prompt pf topic (words_for (lit "constructor"))
     = lit "Write an informative, SEO-friendly article about " ++ [34] ++ topic ++ [34]
       ++ lit " in about " ++ builtin_text pf (lit "constructor")
       ++ lit " words. Use clear headings and short paragraphs. End with a brief conclusion.".
Proof.
  split; [reflexivity|]. split; [reflexivity|]. split; [discriminate|]. reflexivity.
Qed.

(** The request [onGenerate] sends for the preset "constructor" asks for
    an article of "function constructor() { [native code] }" words. *)
Example onGenerate_inherited_name_request :
  requests (trace (onGenerate offline openai (Some (lit "sk-1")) (lit "tea")
                     (lit "constructor")))
  = [openai_request (lit "sk-1")
       (lit "Write an informative, SEO-friendly article about " ++ [34] ++ lit "tea" ++ [34]
        ++ lit " in about function constructor() { [native code] } words."
        ++ lit " Use clear headings and short paragraphs. End with a brief conclusion.")].
Proof. vm_compute. reflexivity. Qed.

(** A whole run of [onGenerate]: topic normalised, request sent, article
    stored, busy flag cleared. *)
Example onGenerate_run :
  onGenerate (answering (json_response 200 sample_openai_body)) openai (Some (lit "sk-1"))
    (9 :: lit " green   tea ") (lit "short")
  = ([ev_setGenerating true; ev_setArticle [];
      ev_setTimeout 30000;
      ev_fetch (openai_request (lit "sk-1")
        (lit "Write an informative, SEO-friendly article about " ++ [34] ++ lit "green tea"
         ++ [34] ++ lit " in about 300 words. Use clear headings and short paragraphs."
         ++ lit " End with a brief conclusion."));
      ev_clearTimeout;
      ev_setArticle (lit "Hello there.");
      ev_setGenerating false],
     Return tt).
Proof. vm_compute. reflexivity. Qed.

End Presets.

Section Counterexamples.

Import SettingsDialog Index Spec.


End Counterexamples.

(* ===================================================================== *)
(** ** Further properties of the key store                                *)
(* ===================================================================== *)

Section KeyStoreMore.

Import SettingsDialog Lifecycle Spec.

(** The browser state after [onSave], area by area. *)
Lemma onSave_areas p m kA kB b :
  let put (k : string) (v : jsstring) (a : gmap string jsstring) :=
    if truthy_str v then <[k := v]> a else delete k a in
  let flags := <[LOCAL_KEYS.storeMode := m]>
                 (<[LOCAL_KEYS.provider := Provider_str p]> (localStorage b)) in
  fst (onSave p m kA kB b)
  = if str_eqb m (lit "session")
    then mkBrowser
           (delete LOCAL_KEYS.gemini (delete LOCAL_KEYS.openai flags))
           (put LOCAL_KEYS.gemini kB (put LOCAL_KEYS.openai kA (sessionStorage b)))
    else mkBrowser
           (put LOCAL_KEYS.gemini kB (put LOCAL_KEYS.openai kA flags))
           (delete LOCAL_KEYS.gemini (delete LOCAL_KEYS.openai (sessionStorage b))).
Proof.
  intros put flags. subst put flags.
  unfold onSave, storage_for, other_for, setItem, removeItem.
  destruct (str_eqb m (lit "session")), (truthy_str kA), (truthy_str kB); reflexivity.
Qed.

(** Lookups in explicit insert and delete chains, key by key. *)
Ltac map_cases :=
  repeat (rewrite lookup_insert || rewrite lookup_delete);
  repeat case_decide; try congruence; try reflexivity.

Lemma onSave_provider_flag p m kA kB b :
  localStorage (fst (onSave p m kA kB b)) !! LOCAL_KEYS.provider = Some (Provider_str p).
Proof.
  rewrite onSave_areas.
  destruct (str_eqb m (lit "session")), (truthy_str kA), (truthy_str kB);
    cbn [localStorage]; by simplify_map_eq.
Qed.

Lemma getStoredProvider_onSave p m kA kB b :
  getStoredProvider (fst (onSave p m kA kB b)) = p.
Proof.
  unfold getStoredProvider, getItem. cbn [area]. rewrite onSave_provider_flag.
  by destruct p.
Qed.

Lemma or_else_selected (v : jsstring) :
  or_else (if truthy_str v then Some v else None) [] = v.
Proof. by destruct v. Qed.

(** X1. Saving the form and opening the dialog again shows what was saved:
    for a form whose storage mode is not the empty string, the mount effect
    after [onSave] loads exactly the saved provider, mode and keys, whatever
    the storage areas held before. *)
Theorem save_then_load (s : DialogState) (b : Browser) :
  storeMode s <> [] ->
  loadSettings (save s b) = s.
Proof.
  destruct s as [p kA kB m]. unfold save. cbn [provider openaiKey geminiKey storeMode].
  intros Hm. unfold loadSettings.
  rewrite getStoredProvider_onSave.
  assert (Hmode : or_else (getItem ref_localStorage LOCAL_KEYS.storeMode
                             (fst (onSave p m kA kB b))) (lit "local") = m).
  { unfold getItem. cbn [area]. rewrite onSave_mode_flag.
    destruct m; [contradiction | reflexivity]. }
  rewrite Hmode. unfold getItem.
  pose proof (onSave_target p m kA kB b openai) as HA.
  pose proof (onSave_target p m kA kB b gemini) as HB.
  cbn [key_of entered] in HA, HB. rewrite HA, HB.
  by rewrite !or_else_selected.
Qed.

Lemma save_then_load_witness :
  loadSettings (save (mkDialogState gemini [] (lit "g-key") (lit "session")) sample_browser)
  = mkDialogState gemini [] (lit "g-key") (lit "session").
Proof.
  apply (save_then_load (mkDialogState gemini [] (lit "g-key") (lit "session"))
           sample_browser).
  discriminate.
Defined.

(** X2. The last save wins: a second [onSave] leaves the two storage areas
    exactly as if the first had never happened; in particular saving the
    same form twice is the same as saving it once. *)
Theorem last_save_wins (p1 p2 : Provider) (m1 m2 a1 a2 g1 g2 : jsstring) (b : Browser) :
  fst (onSave p2 m2 a2 g2 (fst (onSave p1 m1 a1 g1 b))) = fst (onSave p2 m2 a2 g2 b)
  /\ fst (onSave p1 m1 a1 g1 (fst (onSave p1 m1 a1 g1 b))) = fst (onSave p1 m1 a1 g1 b).
Proof.
  assert (H : forall q1 q2 n1 n2 c1 c2 d1 d2,
    fst (onSave q2 n2 c2 d2 (fst (onSave q1 n1 c1 d1 b))) = fst (onSave q2 n2 c2 d2 b)).
  { intros. rewrite !onSave_areas. cbn zeta.
    destruct (str_eqb n1 (lit "session")), (str_eqb n2 (lit "session")),
      (truthy_str c1), (truthy_str d1), (truthy_str c2), (truthy_str d2);
      cbn [localStorage sessionStorage];
      f_equal; apply map_eq; intros k; map_cases. }
  split; apply H.
Qed.

(** X3. [onSave] writes four names and nothing else: every other entry of
    either storage area is left as it was, and the session area never
    receives the provider or the mode flag. *)
Theorem onSave_frame (p : Provider) (m kA kB : jsstring) (b : Browser)
    (r : StorageRef) (k : string) :
  k <> LOCAL_KEYS.openai -> k <> LOCAL_KEYS.gemini ->
  r = ref_sessionStorage \/ (k <> LOCAL_KEYS.provider /\ k <> LOCAL_KEYS.storeMode) ->
  area r (fst (onSave p m kA kB b)) !! k = area r b !! k.
Proof.
  intros Ho Hg Hr. rewrite onSave_areas. cbn zeta.
  destruct (str_eqb m (lit "session")), (truthy_str kA), (truthy_str kB), r;
    cbn [area localStorage sessionStorage]; map_cases;
    destruct Hr as [Hr|[Hp Hs]]; congruence.
Qed.

Lemma onSave_frame_witness :
  sessionStorage (fst (onSave openai (lit "session") (lit "x") []
     (mkBrowser {[ "theme" := lit "dark" ]} {[ LOCAL_KEYS.provider := lit "kept" ]})))
    !! LOCAL_KEYS.provider = Some (lit "kept")
  /\ localStorage (fst (onSave openai (lit "session") (lit "x") []
     (mkBrowser {[ "theme" := lit "dark" ]} {[ LOCAL_KEYS.provider := lit "kept" ]})))
    !! "theme" = Some (lit "dark").
Proof.
  split.
  - etrans; [apply (onSave_frame openai (lit "session") (lit "x") [] _ ref_sessionStorage
                      LOCAL_KEYS.provider); [discriminate | discriminate | by left]|].
    reflexivity.
  - etrans; [apply (onSave_frame openai (lit "session") (lit "x") [] _ ref_localStorage
                      "theme"); [discriminate | discriminate | right; split; discriminate]|].
    reflexivity.
Defined.

Lemma mount_reads_storage b :
  mount b = mkIndexState (getStoredProvider b) (getApiKey (getStoredProvider b) b).
Proof.
  unfold mount, render_with, first_render. cbn [activeProvider providerKey].
  case_decide as H; [by rewrite H | reflexivity].
Qed.

Lemma mount_onSave p m kA kB b :
  mount (fst (onSave p m kA kB b))
  = mkIndexState p (if truthy_str (entered p kA kB) then Some (entered p kA kB) else None).
Proof.
  rewrite mount_reads_storage, getStoredProvider_onSave.
  by rewrite getApiKey_selected, onSave_selected, onSave_target.
Qed.

(** X4. A save followed by a page load: the page then works with the saved
    provider, and its memoised key is the key entered for that provider, or
    nothing when that key was left empty; the key entered for the other
    provider and the previous storage contents play no part. *)
Theorem mount_after_save (p : Provider) (m kA kB : jsstring) (b : Browser) :
  mount (fst (onSave p m kA kB b))
  = mkIndexState p (if truthy_str (entered p kA kB) then Some (entered p kA kB) else None).
Proof.
  unfold mount, render_with, first_render. cbn [activeProvider providerKey].
  rewrite getStoredProvider_onSave.
  assert (Hkey : forall q, getApiKey q (fst (onSave p m kA kB b))
                           = if truthy_str (entered q kA kB)
                             then Some (entered q kA kB) else None).
  { intros q. by rewrite getApiKey_selected, onSave_selected, onSave_target. }
  rewrite !Hkey. by destruct p.
Qed.

End KeyStoreMore.

(* ===================================================================== *)
(** ** Trimming and white space collapse                                  *)
(* ===================================================================== *)

Section Trim.

Import Shape.

Lemma trimStart_no_lead s : no_lead (trimStart s).
Proof.
  induction s as [|c r IH]; [exact I|].
  cbn [trimStart]. destruct (is_space c) eqn:E; [exact IH | exact E].
Qed.

Lemma trimStart_id s : no_lead s -> trimStart s = s.
Proof. destruct s as [|c r]; [reflexivity|]. cbn. by intros ->. Qed.

Lemma trimStart_length s : (length (trimStart s) <= length s)%nat.
Proof.
  induction s as [|c r IH]; [reflexivity|].
  cbn [trimStart]. destruct (is_space c); cbn [length]; lia.
Qed.

Lemma trimStart_suffix s :
  exists p, s = p ++ trimStart s /\ Forall (fun c => is_space c = true) p.
Proof.
  induction s as [|c r (p & Hp & Hall)]; [by exists []|].
  cbn [trimStart]. destruct (is_space c) eqn:E.
  - exists (c :: p). split; [cbn; by rewrite <- Hp | by constructor].
  - by exists [].
Qed.

Lemma trimStart_app s t : no_lead t -> trimStart (s ++ t) = trimStart s ++ t.
Proof.
  intros Ht. induction s as [|c r IH]; [by apply trimStart_id|].
  cbn. destruct (is_space c); [exact IH | reflexivity].
Qed.

Lemma trimEnd_no_trail s : no_trail (trimEnd s).
Proof.
  unfold no_trail, trimEnd. rewrite reverse_involutive. apply trimStart_no_lead.
Qed.

Lemma trimEnd_id s : no_trail s -> trimEnd s = s.
Proof.
  unfold no_trail, trimEnd. intros H. rewrite trimStart_id by exact H.
  apply reverse_involutive.
Qed.

Lemma trimEnd_prefix s :
  exists q, s = trimEnd s ++ q /\ Forall (fun c => is_space c = true) q.
Proof.
  destruct (trimStart_suffix (reverse s)) as (p & Hp & Hall).
  exists (reverse p). split.
  - unfold trimEnd. rewrite <- reverse_app, <- Hp. by rewrite reverse_involutive.
  - by apply Forall_reverse.
Qed.

Lemma trimEnd_length s : (length (trimEnd s) <= length s)%nat.
Proof.
  unfold trimEnd. rewrite length_reverse.
  etrans; [apply trimStart_length|]. by rewrite length_reverse.
Qed.

Lemma trimEnd_no_lead s : no_lead s -> no_lead (trimEnd s).
Proof.
  destruct s as [|c r]; [intros _; exact I|].
  intros Hc. unfold trimEnd. rewrite reverse_cons, trimStart_app by exact Hc.
  rewrite reverse_app. exact Hc.
Qed.

Lemma trim_no_lead s : no_lead (trim s).
Proof. apply trimEnd_no_lead, trimStart_no_lead. Qed.

Lemma trim_no_trail s : no_trail (trim s).
Proof. apply trimEnd_no_trail. Qed.

Lemma trim_id s : no_lead s -> no_trail s -> trim s = s.
Proof.
  intros Hl Ht. unfold trim. rewrite (trimStart_id s Hl). by apply trimEnd_id.
Qed.

Lemma trim_idempotent s : trim (trim s) = trim s.
Proof. apply trim_id; [apply trim_no_lead | apply trim_no_trail]. Qed.

Lemma trim_length s : (length (trim s) <= length s)%nat.
Proof.
  unfold trim. etrans; [apply trimEnd_length | apply trimStart_length].
Qed.

End Trim.

Section Collapse.

Import Shape.

Lemma replace_skip_drop m rep (k : nat) (s : jsstring) :
  replace_skip m rep k s = replace_skip m rep 0 (drop k s).
Proof.
  revert k. induction s as [|c r IH]; intros [|k]; try reflexivity.
  cbn [replace_skip drop]. apply IH.
Qed.

Lemma drop_span_spaces s : drop (span_len is_space s) s = trimStart s.
Proof.
  induction s as [|c r IH]; [reflexivity|].
  cbn. destruct (is_space c); [exact IH | reflexivity].
Qed.

(** The collapse, code unit by code unit: a run of white space becomes one
    space, everything else is copied. *)
Lemma collapse_cons c r :
  collapse (c :: r)
  = if is_space c then 32 :: collapse (trimStart r) else c :: collapse r.
Proof.
  unfold collapse, replace_global. cbn [replace_skip]. unfold re_spaces.
  cbn [span_len]. destruct (is_space c); [|reflexivity].
  rewrite replace_skip_drop, drop_span_spaces. reflexivity.
Qed.

Lemma collapse_no_lead s : no_lead s -> no_lead (collapse s).
Proof.
  destruct s as [|c r]; [intros _; exact I|].
  cbn [no_lead]. intros Hc. rewrite collapse_cons, Hc. exact Hc.
Qed.

Lemma spaced_mono s : spaced true s = true -> spaced false s = true.
Proof.
  destruct s as [|c r]; [reflexivity|]. cbn.
  destruct (is_space c); [|auto]. rewrite andb_false_r. discriminate.
Qed.

Lemma spaced_true_no_lead s : spaced true s = true -> no_lead s.
Proof.
  destruct s as [|c r]; [intros _; exact I|]. cbn.
  destruct (is_space c); [|reflexivity]. rewrite andb_false_r. discriminate.
Qed.

Lemma spaced_no_lead b s : no_lead s -> spaced false s = true -> spaced b s = true.
Proof.
  destruct s as [|c r]; [reflexivity|]. cbn. by intros ->.
Qed.

Lemma collapse_spaced_bounded (n : nat) :
  forall s, (length s <= n)%nat -> spaced false (collapse s) = true.
Proof.
  induction n as [|n IH]; intros [|c r] Hlen; try reflexivity; cbn in Hlen; [lia|].
  rewrite collapse_cons. destruct (is_space c) eqn:E.
  - cbn [spaced]. change (is_space 32) with true. cbn [N.eqb Pos.eqb negb andb].
    apply spaced_no_lead.
    + apply collapse_no_lead, trimStart_no_lead.
    + apply IH. pose proof (trimStart_length r). lia.
  - cbn [spaced]. rewrite E. apply IH. lia.
Qed.

Lemma collapse_spaced s : spaced false (collapse s) = true.
Proof. by apply (collapse_spaced_bounded (length s)). Qed.

Lemma collapse_length_bounded (n : nat) :
  forall s, (length s <= n)%nat -> (length (collapse s) <= length s)%nat.
Proof.
  induction n as [|n IH]; intros [|c r] Hlen; try reflexivity; cbn in Hlen; [lia|].
  rewrite collapse_cons. destruct (is_space c).
  - cbn [length]. pose proof (trimStart_length r).
    specialize (IH (trimStart r) ltac:(lia)). lia.
  - cbn [length]. specialize (IH r ltac:(lia)). lia.
Qed.

Lemma collapse_length s : (length (collapse s) <= length s)%nat.
Proof. by apply (collapse_length_bounded (length s)). Qed.

Lemma collapse_id b s : spaced b s = true -> collapse s = s.
Proof.
  revert b. induction s as [|c r IH]; intros b H; [reflexivity|].
  rewrite collapse_cons. cbn [spaced] in H. destruct (is_space c).
  - apply andb_true_iff in H as [H Hr]. apply andb_true_iff in H as [Hc _].
    apply N.eqb_eq in Hc. subst c.
    rewrite (trimStart_id r (spaced_true_no_lead r Hr)).
    by rewrite (IH true Hr).
  - by rewrite (IH false H).
Qed.

Lemma spaced_trimStart s : spaced false s = true -> spaced false (trimStart s) = true.
Proof.
  induction s as [|c r IH]; [reflexivity|].
  intros H. cbn [trimStart]. destruct (is_space c) eqn:E; [|exact H].
  cbn [spaced] in H. rewrite E in H.
  apply andb_true_iff in H as [_ Hr]. apply IH, spaced_mono, Hr.
Qed.

Lemma spaced_prefix b p q : spaced b (p ++ q) = true -> spaced b p = true.
Proof.
  revert b. induction p as [|c r IH]; intros b H; [reflexivity|].
  cbn [app spaced] in *. destruct (is_space c).
  - apply andb_true_iff in H as [H Hr]. rewrite H. apply (IH true Hr).
  - apply (IH false H).
Qed.

Lemma spaced_trim s : spaced false s = true -> spaced false (trim s) = true.
Proof.
  intros H. unfold trim.
  destruct (trimEnd_prefix (trimStart s)) as (q & Hq & _).
  apply (spaced_prefix false _ q). rewrite <- Hq. by apply spaced_trimStart.
Qed.

(** Collapse then trim, the normalisation of the topic and of the fetched
    text, gives a text in normal form, and leaves such a text as it is. *)
Lemma normalise_normal s : normal (trim (collapse s)).
Proof.
  split; [apply trim_no_lead|]. split; [apply trim_no_trail|].
  apply spaced_trim, collapse_spaced.
Qed.

Lemma normalise_id s : normal s -> trim (collapse s) = s.
Proof.
  intros (Hl & Ht & Hs). rewrite (collapse_id false s Hs). by apply trim_id.
Qed.

Lemma normalise_length s : (length (trim (collapse s)) <= length s)%nat.
Proof. etrans; [apply trim_length | apply collapse_length]. Qed.

End Collapse.

(* ===================================================================== *)
(** ** Tag stripping                                                      *)
(* ===================================================================== *)

Section Tags.

Import Shape.

(** The tag pattern with its two literal characters as tests. *)
Lemma re_tag_eq (s : jsstring) :
  re_tag s
  = match s with
    | c :: r =>
      if c =? 60 then
        match span_len not_gt r with
        | O => None
        | S a => match drop (S a) r with
                 | d :: _ => if d =? 62 then Some (1 + S a + 1)%nat else None
                 | [] => None
                 end
        end
      else None
    | [] => None
    end.
Proof.
  destruct s as [|c r]; [reflexivity|].
  destruct (N.eqb_spec c 60) as [->|Hc].
  - cbn [re_tag]. destruct (span_len not_gt r) as [|a]; [reflexivity|].
    destruct (drop (S a) r) as [|d t]; [reflexivity|].
    destruct (N.eqb_spec d 62) as [->|Hd]; [reflexivity|].
    destruct d as [|p]; [reflexivity|].
    repeat (destruct p as [p|p|]; try reflexivity; try congruence).
  - destruct c as [|p]; [reflexivity|].
    repeat (destruct p as [p|p|]; try reflexivity; try congruence).
Qed.

Lemma has_gt_cons c r : has_gt (c :: r) = (62 =? c) || has_gt r.
Proof. reflexivity. Qed.

(** Where the greedy class loop stops: at the end, with no ">" passed, or
    in front of a ">". *)
Lemma span_not_gt (r : jsstring) :
  (drop (span_len not_gt r) r = [] /\ has_gt r = false)
  \/ (exists t, drop (span_len not_gt r) r = 62 :: t).
Proof.
  induction r as [|d r IH]; [by left|].
  cbn [span_len]. destruct (not_gt d) eqn:E; unfold not_gt in E.
  - cbn [drop]. destruct IH as [[H1 H2]|[t Ht]]; [left | right; by exists t].
    split; [exact H1|]. rewrite has_gt_cons, H2.
    apply negb_true_iff in E. rewrite N.eqb_sym in E. by rewrite E.
  - apply negb_false_iff, N.eqb_eq in E as ->. right. by exists r.
Qed.

Lemma span_not_gt_head d r : span_len not_gt (d :: r) = O <-> d = 62.
Proof.
  cbn. unfold not_gt. destruct (N.eqb_spec d 62); cbn; split; congruence.
Qed.

(** A match of the tag pattern is at least three code units long and never
    longer than the text. *)
Lemma re_tag_Some s k :
  re_tag s = Some k ->
  exists c r n, s = c :: r /\ k = S n /\ (1 <= n <= length r)%nat.
Proof.
  rewrite re_tag_eq. destruct s as [|c r]; [discriminate|].
  destruct (c =? 60); [|discriminate].
  destruct (span_len not_gt r) as [|a] eqn:Ha; [discriminate|].
  destruct (drop (S a) r) as [|d t] eqn:Hd; [discriminate|].
  destruct (d =? 62); intros E; [|discriminate E]. injection E as <-.
  exists c, r, (S a + 1)%nat. split; [reflexivity|]. split; [lia|].
  assert (S a < length r)%nat; [|lia].
  destruct (Nat.lt_ge_cases (S a) (length r)) as [H|H]; [exact H|].
  rewrite drop_ge in Hd by exact H. discriminate.
Qed.

(** Where the pattern does not match at a "<", the next code unit is ">"
    or no ">" follows at all. *)
Lemma re_tag_None_lt r :
  re_tag (60 :: r) = None ->
  match r with
  | d :: _ => (d =? 62) || negb (has_gt r)
  | [] => true
  end = true.
Proof.
  rewrite re_tag_eq. cbn [N.eqb Pos.eqb].
  destruct r as [|d r']; [reflexivity|].
  destruct (span_len not_gt (d :: r')) as [|a] eqn:Ha.
  - apply span_not_gt_head in Ha as ->. reflexivity.
  - destruct (span_not_gt (d :: r')) as [[H1 H2]|[t Ht]]; rewrite Ha in *.
    + intros _. rewrite H2. apply orb_true_r.
    + rewrite Ht. cbn. discriminate.
Qed.

Lemma strip_tags_cons c r :
  strip_tags (c :: r)
  = match re_tag (c :: r) with
    | Some (S n) => 32 :: strip_tags (drop n r)
    | _ => c :: strip_tags r
    end.
Proof.
  unfold strip_tags, replace_global. cbn [replace_skip].
  destruct (re_tag (c :: r)) as [[|n]|]; try reflexivity.
  by rewrite replace_skip_drop.
Qed.

Lemma has_gt_drop (n : nat) (s : jsstring) : has_gt s = false -> has_gt (drop n s) = false.
Proof.
  revert n. induction s as [|c r IH]; intros [|n] H; try exact H.
  cbn [drop]. apply IH. rewrite has_gt_cons in H.
  by apply orb_false_iff in H as [_ H].
Qed.

Lemma strip_tags_has_gt_bounded (n : nat) :
  forall s, (length s <= n)%nat -> has_gt s = false -> has_gt (strip_tags s) = false.
Proof.
  induction n as [|n IH]; intros [|c r] Hlen Hs; try reflexivity; cbn in Hlen; [lia|].
  rewrite has_gt_cons in Hs. apply orb_false_iff in Hs as [Hc Hr].
  rewrite strip_tags_cons.
  destruct (re_tag (c :: r)) as [[|k]|] eqn:E.
  - rewrite has_gt_cons, Hc. apply IH; [lia | exact Hr].
  - rewrite has_gt_cons. cbn [N.eqb orb].
    apply IH; [rewrite length_drop; lia | by apply has_gt_drop].
  - rewrite has_gt_cons, Hc. apply IH; [lia | exact Hr].
Qed.

Lemma follows_no_gt (x : jsstring) :
  has_gt x = false ->
  match x with
  | d :: _ => (d =? 62) || negb (has_gt x)
  | [] => true
  end = true.
Proof. intros H. destruct x; [reflexivity|]. rewrite H. apply orb_true_r. Qed.

Lemma strip_tags_inert_bounded (n : nat) :
  forall s, (length s <= n)%nat -> inert (strip_tags s) = true.
Proof.
  induction n as [|n IH]; intros [|c r] Hlen; try reflexivity; cbn in Hlen; [lia|].
  rewrite strip_tags_cons.
  assert (Hkeep : re_tag (c :: r) = None -> inert (c :: strip_tags r) = true).
  { intros E. cbn [inert]. rewrite IH by lia. rewrite andb_true_r.
    destruct (N.eqb_spec c 60) as [->|Hc]; [|reflexivity].
    apply re_tag_None_lt in E.
    destruct r as [|d r']; [reflexivity|].
    apply orb_true_iff in E as [Hd|Hn].
    - apply N.eqb_eq in Hd as ->.
      rewrite strip_tags_cons.
      assert (re_tag (62 :: r') = None) as -> by (by rewrite re_tag_eq).
      reflexivity.
    - apply negb_true_iff in Hn. apply follows_no_gt.
      by apply (strip_tags_has_gt_bounded (length (d :: r'))). }
  destruct (re_tag (c :: r)) as [[|k]|] eqn:E.
  - apply re_tag_Some in E as (? & ? & ? & _ & ? & _). discriminate.
  - cbn [inert N.eqb Pos.eqb andb]. apply IH. rewrite length_drop. lia.
  - by apply Hkeep.
Qed.

Lemma strip_tags_inert s : inert (strip_tags s) = true.
Proof. by apply (strip_tags_inert_bounded (length s)). Qed.

Lemma inert_tail c r : inert (c :: r) = true -> inert r = true.
Proof. cbn [inert]. intros H. by apply andb_true_iff in H as [_ H]. Qed.

Lemma inert_drop (i : nat) (s : jsstring) : inert s = true -> inert (drop i s) = true.
Proof.
  revert i. induction s as [|c r IH]; intros [|i] H; try exact H.
  cbn [drop]. apply IH. by apply inert_tail in H.
Qed.

Lemma inert_trimStart s : inert s = true -> inert (trimStart s) = true.
Proof.
  destruct (trimStart_suffix s) as (p & Hp & _). intros H.
  rewrite Hp in H. revert H. generalize (trimStart s). clear Hp.
  induction p as [|c p IH]; intros t H; [exact H|].
  apply IH. by apply inert_tail in H.
Qed.

Lemma has_gt_app (p q : jsstring) : has_gt (p ++ q) = has_gt p || has_gt q.
Proof. unfold has_gt. apply existsb_app. Qed.

Lemma inert_prefix (p q : jsstring) : inert (p ++ q) = true -> inert p = true.
Proof.
  induction p as [|c p IH]; [reflexivity|].
  cbn [app inert]. intros H. apply andb_true_iff in H as [Hh Ht].
  rewrite (IH Ht), andb_true_r.
  destruct (c =? 60); [|reflexivity].
  destruct p as [|d p']; [reflexivity|]. cbn [app] in Hh.
  apply orb_true_iff in Hh as [Hd|Hn]; [by rewrite Hd|].
  apply negb_true_iff in Hn. change (d :: p' ++ q) with ((d :: p') ++ q) in Hn.
  rewrite has_gt_app in Hn. apply orb_false_iff in Hn as [Hn _].
  rewrite Hn. apply orb_true_r.
Qed.

Lemma inert_trim s : inert s = true -> inert (trim s) = true.
Proof.
  intros H. unfold trim.
  destruct (trimEnd_prefix (trimStart s)) as (q & Hq & _).
  apply (inert_prefix _ q). rewrite <- Hq. by apply inert_trimStart.
Qed.

Lemma is_space_not_angle c : is_space c = true -> (c =? 60) = false /\ (62 =? c) = false.
Proof.
  intros H. split.
  - destruct (N.eqb_spec c 60) as [->|]; [discriminate H | reflexivity].
  - destruct (N.eqb_spec 62 c) as [<-|]; [discriminate H | reflexivity].
Qed.

Lemma collapse_has_gt_bounded (n : nat) :
  forall s, (length s <= n)%nat -> has_gt s = false -> has_gt (collapse s) = false.
Proof.
  induction n as [|n IH]; intros [|c r] Hlen Hs; try reflexivity; cbn in Hlen; [lia|].
  rewrite has_gt_cons in Hs. apply orb_false_iff in Hs as [Hc Hr].
  rewrite collapse_cons. destruct (is_space c).
  - rewrite has_gt_cons. cbn [N.eqb orb]. apply IH.
    + pose proof (trimStart_length r). lia.
    + rewrite <- drop_span_spaces. by apply has_gt_drop.
  - rewrite has_gt_cons, Hc. apply IH; [lia | exact Hr].
Qed.

Lemma collapse_inert_bounded (n : nat) :
  forall s, (length s <= n)%nat -> inert s = true -> inert (collapse s) = true.
Proof.
  induction n as [|n IH]; intros [|c r] Hlen Hs; try reflexivity; cbn in Hlen; [lia|].
  rewrite collapse_cons. destruct (is_space c) eqn:Ec.
  - cbn [inert N.eqb Pos.eqb andb]. apply IH.
    + pose proof (trimStart_length r). lia.
    + apply inert_trimStart. by apply inert_tail in Hs.
  - cbn [inert] in *. apply andb_true_iff in Hs as [Hh Ht].
    rewrite (IH r ltac:(lia) Ht), andb_true_r.
    destruct (c =? 60); [|reflexivity].
    destruct r as [|d r']; [reflexivity|].
    apply orb_true_iff in Hh as [Hd|Hn].
    + apply N.eqb_eq in Hd as ->. rewrite collapse_cons.
      change (is_space 62) with false. reflexivity.
    + apply negb_true_iff in Hn. apply follows_no_gt.
      apply (collapse_has_gt_bounded (length (d :: r'))); [reflexivity | exact Hn].
Qed.

Lemma collapse_inert s : inert s = true -> inert (collapse s) = true.
Proof. by apply (collapse_inert_bounded (length s)). Qed.

(** In an inert text the tag pattern matches nowhere. *)
Lemma inert_tag_free s : inert s = true -> tag_free s.
Proof.
  intros H i. apply (inert_drop i) in H. revert H. generalize (drop i s). clear.
  intros s H. rewrite re_tag_eq. destruct s as [|c r]; [reflexivity|].
  destruct (N.eqb_spec c 60) as [->|]; [|reflexivity].
  cbn [inert N.eqb Pos.eqb] in H. apply andb_true_iff in H as [Hh _].
  destruct r as [|d r']; [reflexivity|].
  apply orb_true_iff in Hh as [Hd|Hn].
  - apply N.eqb_eq in Hd as ->. reflexivity.
  - apply negb_true_iff in Hn.
    destruct (span_len not_gt (d :: r')) as [|a] eqn:Ha; [reflexivity|].
    destruct (span_not_gt (d :: r')) as [[H1 _]|[t Ht]]; rewrite Ha in *.
    + by rewrite H1.
    + exfalso. assert (Hd : has_gt (drop (S a) (d :: r')) = false) by by apply has_gt_drop.
      rewrite Ht in Hd. discriminate Hd.
Qed.

End Tags.

(* ===================================================================== *)
(** ** Shape of the texts the components produce                          *)
(* ===================================================================== *)

Section TextShapes.

Import SettingsDialog Index Spec Shape.

Lemma cleanTopic_collapse topic : cleanTopic topic = trim (collapse topic).
Proof. reflexivity. Qed.

Lemma strip_html_collapse html :
  strip_html html
  = trim (collapse (strip_tags
      (replace_global (re_block "style") [] (replace_global (re_block "script") [] html)))).
Proof. reflexivity. Qed.

Lemma len_le (s t : jsstring) : (length s <= length t)%nat -> len s <= len t.
Proof. unfold len. lia. Qed.

(** X5. The normalised topic is in normal form: it neither starts nor ends
    with white space and its only white space is single U+0020 between
    other code units.  It is never longer than the topic typed, so a topic
    of at most 120 code units is never refused as too long.  A topic already
    in normal form is left as it is; normalising twice is normalising
    once. *)
Theorem cleanTopic_normal_form (topic : jsstring) :
  normal (cleanTopic topic)
  /\ len (cleanTopic topic) <= len topic
  /\ cleanTopic (cleanTopic topic) = cleanTopic topic
  /\ (normal topic -> cleanTopic topic = topic)
  /\ (len topic <= 120 -> (120 <? len (cleanTopic topic)) = false).
Proof.
  rewrite !cleanTopic_collapse.
  assert (Hlen : len (trim (collapse topic)) <= len topic)
    by apply len_le, normalise_length.
  split; [apply normalise_normal|]. split; [exact Hlen|].
  split; [apply normalise_id, normalise_normal|].
  split; [apply normalise_id|].
  intros H. apply N.ltb_ge. lia.
Qed.

Lemma cleanTopic_normal_form_witness :
  cleanTopic (lit "green tea") = lit "green tea"
  /\ (120 <? len (cleanTopic (repeat 32 60 ++ repeat 97 60))) = false.
Proof.
  split.
  - apply (cleanTopic_normal_form (lit "green tea")). repeat split.
  - apply (cleanTopic_normal_form (repeat 32 60 ++ repeat 97 60)).
    vm_compute. discriminate.
Defined.

(** X6. Whatever page the network delivers, a text returned by
    [tryFetchUrlContent] is in normal form (no white space at either end,
    single spaces only) and the tag pattern matches nowhere in it: no
    "<", one or more code units other than ">", ">" is left. *)
Theorem tryFetchUrlContent_text_shape (pf : Platform) (url t : jsstring) :
  completion (tryFetchUrlContent pf url) = Return (Some t) ->
  normal t /\ tag_free t.
Proof.
  rewrite tryFetchUrlContent_paths.
  destruct (new_URL pf url) as [e|u]; [discriminate|].
  destruct (includes http_schemes (protocol u)); [|discriminate].
  destruct (fetch_settles pf (content_request u)) as [e|res]; [discriminate|].
  cbn [completion snd]. destruct (ok res); [|discriminate].
  destruct (text res) as [e|html]; [discriminate|].
  intros [= <-]. rewrite strip_html_collapse. split; [apply normalise_normal|].
  apply inert_tag_free, inert_trim, collapse_inert, strip_tags_inert.
Qed.

Lemma tryFetchUrlContent_text_shape_witness :
  normal (lit "a <> c") /\ tag_free (lit "a <> c").
Proof.
  apply (tryFetchUrlContent_text_shape
           (answering (html_response 200
              (lit "<p>a < b</p> <i >  </i><> <script>x<y></script>c<br/>")))
           (lit "https://example.com")).
  vm_compute. reflexivity.
Defined.

Lemma trimmed_result (v : Val) (s : jsstring) :
  completion (do content <- opt_trim_call v; ret (or_else content [])) = Return s ->
  trim s = s.
Proof.
  destruct v as [|[| | |x| |props]]; cbn [opt_trim_call];
    try (rewrite bind_ret_l; intros [= <-]; reflexivity).
  - rewrite bind_ret_l, or_else_Some_nil. intros [= <-]. apply trim_idempotent.
  - destruct (own (lit "trim") props) as [[]|];
      try discriminate; rewrite bind_ret_l; intros [= <-]; reflexivity.
Qed.

Lemma openai_text_trimmed data s :
  completion (openai_text data) = Return s -> trim s = s.
Proof.
  unfold openai_text. destruct data; cbn [member]; try discriminate;
    rewrite bind_ret_l; apply trimmed_result.
Qed.

Lemma gemini_text_trimmed data s :
  completion (gemini_text data) = Return s -> trim s = s.
Proof.
  unfold gemini_text. destruct data; cbn [member]; try discriminate;
    rewrite bind_ret_l;
    match goal with |- context [trim_call ?v] => destruct v as [|[]] end;
    cbn; try discriminate; intros [= <-]; apply trim_idempotent.
Qed.

(** X7. Whatever the network answers, a text returned by a provider client
    is trimmed: it neither starts nor ends with white space (it may be
    empty). *)
Theorem provider_text_trimmed (pf : Platform) (provider : Provider)
    (providerKey : option jsstring) (prompt s : jsstring) :
  completion (callProvider pf provider providerKey prompt) = Return s ->
  no_lead s /\ no_trail s /\ trim s = s.
Proof.
  intros H. assert (Ht : trim s = s).
  { destruct provider; cbn [callProvider] in H.
    - rewrite callOpenAI_paths in H. cbn [completion snd] in H.
      destruct (fetch_settles pf _) as [e|res]; [discriminate|].
      destruct (ok res); [|discriminate].
      destruct (json res) as [e|data]; [discriminate|].
      by apply (openai_text_trimmed data).
    - rewrite callGemini_paths in H. cbn [completion snd] in H.
      destruct (fetch_settles pf _) as [e|res]; [discriminate|].
      destruct (ok res); [|discriminate].
      destruct (json res) as [e|data]; [discriminate|].
      by apply (gemini_text_trimmed data). }
  rewrite <- Ht. split; [apply trim_no_lead|]. split; [apply trim_no_trail|].
  apply trim_idempotent.
Qed.

Lemma provider_text_trimmed_witness :
  no_lead (lit "Hello there.") /\ no_trail (lit "Hello there.")
  /\ trim (lit "Hello there.") = lit "Hello there.".
Proof.
  apply (provider_text_trimmed (answering (json_response 200 sample_gemini_body))
           gemini (Some (lit "AIza")) (lit "p")).
  vm_compute. reflexivity.
Defined.

End TextShapes.

(* ===================================================================== *)
(** ** Runs of the two handlers                                           *)
(* ===================================================================== *)

Section HandlerRuns.

Import SettingsDialog Index Spec Shape Runs.

Variable pf : Platform.

Lemma callProvider_eta provider providerKey prompt :
  callProvider pf provider providerKey prompt
  = (provider_call provider (assert_key providerKey) prompt,
     completion (callProvider pf provider providerKey prompt)).
Proof.
  rewrite (eff_eta (callProvider pf provider providerKey prompt)) at 1.
  by rewrite callProvider_trace.
Qed.

Lemma valid_topic_true topic :
  valid_topic topic = true
  <-> cleanTopic topic <> [] /\ len (cleanTopic topic) <= 120.
Proof.
  unfold valid_topic. rewrite andb_true_iff, negb_true_iff, N.ltb_ge.
  destruct (cleanTopic topic); cbn [truthy_str]; split; intros [H1 H2];
    split; congruence || assumption.
Qed.

Lemma falsy_Some_key (providerKey : option jsstring) :
  falsy providerKey = false ->
  exists key, providerKey = Some key /\ key <> [] /\ assert_key providerKey = key.
Proof.
  destruct providerKey as [[|c r]|]; try discriminate.
  intros _. by exists (c :: r).
Qed.

(** [onGenerate] past its checks, event by event. *)
Lemma onGenerate_past_checks provider providerKey topic length :
  valid_topic topic = true -> falsy providerKey = false ->
  let prompt := generate_prompt pf (cleanTopic topic) (words_for length) in
  onGenerate pf provider providerKey topic length
  = ([ev_setGenerating true; ev_setArticle []]
     ++ provider_call provider (assert_key providerKey) prompt
     ++ generate_outcome pf (completion (callProvider pf provider providerKey prompt))
     ++ [ev_setGenerating false],
     Return tt).
Proof.
  intros Hv Hk prompt. apply andb_true_iff in Hv as [Ht Hl].
  apply negb_true_iff in Hl.
  unfold onGenerate, ensureKey. rewrite Ht, Hl, Hk. cbn [negb].
  rewrite bind_ret_l. cbn [negb]. fold prompt.
  rewrite (callProvider_eta provider providerKey prompt).
  destruct (completion (callProvider pf provider providerKey prompt)); reflexivity.
Qed.

(** [onGenerate], whatever its inputs: one of the three refusals, or the
    run past the checks. *)
Lemma onGenerate_refused provider providerKey topic length :
  valid_topic topic && negb (falsy providerKey) = false ->
  exists msg, onGenerate pf provider providerKey topic length
              = ([ev_toast (toast_error msg)], Return tt).
Proof.
  intros H. destruct (valid_topic topic) eqn:Hv.
  - cbn [andb] in H. apply negb_false_iff in H.
    apply valid_topic_true in Hv as [Hne Hlen].
    eexists. by apply onGenerate_no_key.
  - unfold valid_topic in Hv. apply andb_false_iff in Hv as [Hv|Hv].
    + apply truthy_str_nil in Hv. eexists. by apply onGenerate_empty.
    + apply negb_false_iff, N.ltb_lt in Hv. eexists. by apply onGenerate_too_long.
Qed.

(** The rest of [onSummarize] for a text at hand, event by event. *)
Lemma summarize_from_text provider providerKey text :
  (do t <- truncate_text text; summarize_text pf provider providerKey t)
  = (cap_warning text
     ++ [ev_setSummarizing true; ev_setSummary []]
     ++ provider_call provider (assert_key providerKey) (summarize_prompt (capped text))
     ++ summarize_outcome pf
          (completion (callProvider pf provider providerKey (summarize_prompt (capped text))))
     ++ [ev_setSummarizing false],
     Return tt).
Proof.
  unfold truncate_text, cap_warning, capped, summarize_text.
  destruct (MAX_TEXT <? len text).
  - cbn [emit bind ret app].
    rewrite (callProvider_eta provider providerKey
               (summarize_prompt (slice0 MAX_TEXT text))).
    destruct (completion (callProvider pf provider providerKey
                (summarize_prompt (slice0 MAX_TEXT text)))); reflexivity.
  - rewrite bind_ret_l.
    rewrite (callProvider_eta provider providerKey (summarize_prompt text)).
    destruct (completion (callProvider pf provider providerKey
                (summarize_prompt text))); reflexivity.
Qed.

Lemma capped_bound text : text <> [] -> capped text <> [] /\ len (capped text) <= MAX_TEXT.
Proof.
  intros Hne. unfold capped. destruct (MAX_TEXT <? len text) eqn:E.
  - apply N.ltb_lt in E. rewrite len_slice0 by lia. split; [|lia].
    intros H. assert (Hl : len (slice0 MAX_TEXT text) = MAX_TEXT) by (apply len_slice0; lia).
    rewrite H in Hl. discriminate Hl.
  - apply N.ltb_ge in E. by split.
Qed.

(** [onSummarize] with a key, no pasted text and a URL: the URL is checked,
    then fetched, then summarised. *)
Lemma onSummarize_from_url_paths provider providerKey sourceText sourceUrl :
  falsy providerKey = false -> trim sourceText = [] -> trim sourceUrl <> [] ->
  onSummarize pf provider providerKey sourceText sourceUrl
  = match new_URL pf (trim sourceUrl) with
    | inl _ => ([ev_toast (toast_error (lit "Enter a valid http(s) URL."))], Return tt)
    | inr u =>
      if includes http_schemes (protocol u) then
        match completion (tryFetchUrlContent pf (trim sourceUrl)) with
        | Return (Some (c :: r)) =>
          let (t, k) := do t <- truncate_text (c :: r);
                        summarize_text pf provider providerKey t in
          (trace (tryFetchUrlContent pf (trim sourceUrl)) ++ t, k)
        | _ =>
          (trace (tryFetchUrlContent pf (trim sourceUrl))
           ++ [ev_toast (toast_error
                 (lit "Could not fetch URL (CORS). Please paste the article text."))],
           Return tt)
        end
      else ([ev_toast (toast_error (lit "Enter a valid http(s) URL."))], Return tt)
    end.
Proof.
  intros Hk Ht Hu. unfold onSummarize, ensureKey, resolve_source.
  rewrite Hk, Ht. rewrite bind_ret_l. cbn [negb truthy_str andb].
  destruct (truthy_str (trim sourceUrl)) eqn:Eu;
    [|apply truthy_str_nil in Eu; contradiction].
  pose proof (tryFetchUrlContent_paths pf (trim sourceUrl)) as Hp.
  destruct (new_URL pf (trim sourceUrl)) as [e|u]; [reflexivity|].
  cbn [settle bind ret].
  destruct (includes http_schemes (protocol u)); [|reflexivity].
  cbn [settle bind ret throw try_catch negb app].
  rewrite Hp. clear Hp.
  destruct (fetch_settles pf (content_request u)) as [e|res]; [reflexivity|].
  destruct (ok res); [|reflexivity].
  destruct (text res) as [e|html]; [reflexivity|].
  destruct (strip_html html) as [|c r]; [reflexivity|].
  cbn [bind falsy truthy_str negb ret default from_option id app completion trace fst snd].
  by destruct (do t <- truncate_text (c :: r); summarize_text pf provider providerKey t).
Qed.

End HandlerRuns.

Section HandlerFacts.

Import SettingsDialog Index Spec Shape Runs.

Variable pf : Platform.

Lemma last_end {A} (l : list A) (x : A) : last (l ++ [x]) = Some x.
Proof. apply last_snoc. Qed.

Lemma onSummarize_nothing_to_read provider providerKey sourceText sourceUrl :
  falsy providerKey = false -> trim sourceText = [] -> trim sourceUrl = [] ->
  onSummarize pf provider providerKey sourceText sourceUrl
  = ([ev_toast (toast_error (lit "Paste text or provide a URL."))], Return tt).
Proof.
  intros Hk Ht Hu. unfold onSummarize, ensureKey, resolve_source.
  rewrite Hk, Ht, Hu. reflexivity.
Qed.

Lemma onSummarize_with_text provider providerKey sourceText sourceUrl :
  falsy providerKey = false -> trim sourceText <> [] ->
  let text := trim sourceText in
  onSummarize pf provider providerKey sourceText sourceUrl
  = (cap_warning text
     ++ [ev_setSummarizing true; ev_setSummary []]
     ++ provider_call provider (assert_key providerKey) (summarize_prompt (capped text))
     ++ summarize_outcome pf
          (completion (callProvider pf provider providerKey (summarize_prompt (capped text))))
     ++ [ev_setSummarizing false],
     Return tt).
Proof.
  intros Hk Hne text. rewrite onSummarize_pasted by assumption.
  apply summarize_from_text.
Qed.

(** The events of the fetcher: timer and request only. *)
Lemma tryFetchUrlContent_events url ev :
  In ev (trace (tryFetchUrlContent pf url)) ->
  ev = ev_setTimeout 8000 \/ ev = ev_clearTimeout
  \/ exists u, new_URL pf url = inr u /\ includes http_schemes (protocol u) = true
               /\ ev = ev_fetch (content_request u).
Proof.
  rewrite tryFetchUrlContent_paths.
  destruct (new_URL pf url) as [e|u]; [intros []|].
  destruct (includes http_schemes (protocol u)) eqn:Hs; [|intros []].
  destruct (fetch_settles pf (content_request u)); cbn [trace fst In];
    intros H; intuition (subst; eauto 10).
Qed.

(** The events of the run that follows a text at hand. *)
Lemma summarize_run_events provider providerKey text ev :
  In ev (cap_warning text
     ++ [ev_setSummarizing true; ev_setSummary []]
     ++ provider_call provider (assert_key providerKey) (summarize_prompt (capped text))
     ++ summarize_outcome pf
          (completion (callProvider pf provider providerKey (summarize_prompt (capped text))))
     ++ [ev_setSummarizing false]) ->
  ev <> ev_setGenerating true
  /\ (forall req, ev = ev_fetch req ->
        req = provider_request provider (assert_key providerKey)
                (summarize_prompt (capped text))).
Proof.
  unfold cap_warning, provider_call, summarize_outcome.
  rewrite !in_app_iff.
  destruct (MAX_TEXT <? len text),
    (completion (callProvider pf provider providerKey (summarize_prompt (capped text))));
    cbn [In]; intros H; split; try (intros req Hreq);
    intuition (subst; try discriminate; try congruence).
Qed.

Lemma requests_of_onGenerate provider providerKey topic length :
  requests (trace (onGenerate pf provider providerKey topic length))
  = if valid_topic topic && negb (falsy providerKey)
    then [provider_request provider (assert_key providerKey)
            (generate_prompt pf (cleanTopic topic) (words_for length))]
    else [].
Proof.
  destruct (valid_topic topic && negb (falsy providerKey)) eqn:E.
  - apply andb_true_iff in E as [Hv Hk]. apply negb_true_iff in Hk.
    rewrite (onGenerate_past_checks pf provider providerKey topic length Hv Hk).
    cbn [trace fst]. rewrite !requests_app. unfold generate_outcome.
    by destruct (completion _).
  - destruct (onGenerate_refused pf provider providerKey topic length E) as [msg ->].
    reflexivity.
Qed.

Lemma requests_of_summarize_run provider providerKey text :
  requests (cap_warning text
     ++ [ev_setSummarizing true; ev_setSummary []]
     ++ provider_call provider (assert_key providerKey) (summarize_prompt (capped text))
     ++ summarize_outcome pf
          (completion (callProvider pf provider providerKey (summarize_prompt (capped text))))
     ++ [ev_setSummarizing false])
  = [provider_request provider (assert_key providerKey) (summarize_prompt (capped text))].
Proof.
  rewrite !requests_app. unfold cap_warning, summarize_outcome.
  by destruct (MAX_TEXT <? len text), (completion _).
Qed.

Lemma timers_of_summarize_run provider providerKey text :
  let t := cap_warning text
     ++ [ev_setSummarizing true; ev_setSummary []]
     ++ provider_call provider (assert_key providerKey) (summarize_prompt (capped text))
     ++ summarize_outcome pf
          (completion (callProvider pf provider providerKey (summarize_prompt (capped text))))
     ++ [ev_setSummarizing false] in
  armed t = 1%nat /\ disarmed t = 1%nat.
Proof.
  intros t. subst t. unfold armed, disarmed. rewrite !count_app.
  unfold cap_warning, summarize_outcome.
  by destruct (MAX_TEXT <? len text), (completion _).
Qed.

End HandlerFacts.

Section HandlerClaims.

Import SettingsDialog Lifecycle Index Spec Shape Runs.

(** X8. A run of [onGenerate] past its checks (valid topic, key held): it
    raises the busy flag and clears the article, makes one provider call
    (timer armed, request for the prompt of the normalised topic, timer
    disarmed), then either stores the text returned as the article, or logs
    the thrown value and shows its message in an error toast, and lowers the
    busy flag last; the handler itself does not throw. *)
Theorem onGenerate_run_shape
    (pf : Platform) (provider : Provider) (providerKey : option jsstring)
    (topic length : jsstring) :
  valid_topic topic = true -> falsy providerKey = false ->
  let prompt := generate_prompt pf (cleanTopic topic) (words_for length) in
  onGenerate pf provider providerKey topic length
  = ([ev_setGenerating true; ev_setArticle []]
     ++ provider_call provider (assert_key providerKey) prompt
     ++ generate_outcome pf (completion (callProvider pf provider providerKey prompt))
     ++ [ev_setGenerating false],
     Return tt).
Proof.
  intros Hv Hk prompt. apply andb_true_iff in Hv as [Ht Hl].
  apply negb_true_iff in Hl.
  unfold onGenerate, ensureKey. rewrite Ht, Hl, Hk. cbn [negb].
  rewrite bind_ret_l. cbn [negb]. fold prompt.
  rewrite (callProvider_eta pf provider providerKey prompt).
  destruct (completion (callProvider pf provider providerKey prompt)); reflexivity.
Qed.

Lemma onGenerate_run_shape_witness :
  onGenerate offline gemini (Some (lit "AIza")) (lit " tea ") (lit "long")
  = ([ev_setGenerating true; ev_setArticle []]
     ++ provider_call gemini (lit "AIza")
          (generate_prompt offline (lit "tea") (own_number 1200))
     ++ [ev_console_error (PlatformError "TypeError" (lit "Failed to fetch"));
         ev_toast (toast_error (lit "Failed to fetch"))]
     ++ [ev_setGenerating false],
     Return tt).
Proof.
  etrans; [apply (onGenerate_run_shape offline gemini (Some (lit "AIza")) (lit " tea ")
                    (lit "long")); reflexivity|].
  vm_compute. reflexivity.
Defined.

(** X9. The network use of [onGenerate], for every input: exactly one
    request, to the active provider, with the key held and the prompt built
    from the normalised topic and the preset, when the topic is valid and
    the key is not empty; no request at all otherwise. *)
Theorem onGenerate_requests
    (pf : Platform) (provider : Provider) (providerKey : option jsstring)
    (topic length : jsstring) :
  requests (trace (onGenerate pf provider providerKey topic length))
  = if valid_topic topic && negb (falsy providerKey)
    then [provider_request provider (assert_key providerKey)
            (generate_prompt pf (cleanTopic topic) (words_for length))]
    else [].
Proof.
  destruct (valid_topic topic && negb (falsy providerKey)) eqn:E.
  - apply andb_true_iff in E as [Hv Hk]. apply negb_true_iff in Hk.
    rewrite (onGenerate_past_checks pf provider providerKey topic length Hv Hk).
    cbn [trace fst]. rewrite !requests_app. unfold generate_outcome.
    by destruct (completion _).
  - destruct (onGenerate_refused pf provider providerKey topic length E) as [msg ->].
    reflexivity.
Qed.

(** X10. Neither handler ever throws, whatever the platform does and
    whatever the inputs: both complete normally; and whenever a handler has
    raised its busy flag, lowering it is the last thing it does. *)
Theorem handlers_never_throw
    (pf : Platform) (provider : Provider) (providerKey : option jsstring)
    (topic length sourceText sourceUrl : jsstring) :
  completion (onGenerate pf provider providerKey topic length) = Return tt
  /\ busy_cleared (trace (onGenerate pf provider providerKey topic length))
  /\ completion (onSummarize pf provider providerKey sourceText sourceUrl) = Return tt
  /\ busy_cleared (trace (onSummarize pf provider providerKey sourceText sourceUrl)).
Proof.
  assert (Htoast : forall msg, busy_cleared [ev_toast (toast_error msg)]).
  { intros msg. split; intros [H|[]]; discriminate H. }
  assert (Hgen : completion (onGenerate pf provider providerKey topic length) = Return tt
                 /\ busy_cleared (trace (onGenerate pf provider providerKey topic length))).
  { destruct (valid_topic topic && negb (falsy providerKey)) eqn:E.
    - apply andb_true_iff in E as [Hv Hk]. apply negb_true_iff in Hk.
      rewrite (onGenerate_past_checks pf provider providerKey topic length Hv Hk).
      split; [reflexivity|]. cbn [trace fst]. split.
      + intros _. rewrite !app_assoc. apply last_end.
      + unfold provider_call, generate_outcome. rewrite !in_app_iff.
        destruct (completion _); cbn [In]; intros H;
          intuition (try discriminate).
    - destruct (onGenerate_refused pf provider providerKey topic length E) as [msg ->].
      split; [reflexivity | apply Htoast]. }
  assert (Hrun : forall text,
    let run := do t <- truncate_text text; summarize_text pf provider providerKey t in
    completion run = Return tt
    /\ (In (ev_setSummarizing true) (trace run) ->
        exists l, trace run = l ++ [ev_setSummarizing false])
    /\ ~ In (ev_setGenerating true) (trace run)).
  { intros text run. subst run. rewrite summarize_from_text. cbn [completion trace fst snd].
    split; [reflexivity|]. split.
    - intros _. eexists. rewrite !app_assoc. reflexivity.
    - intros H. by apply summarize_run_events in H as [H _]. }
  destruct Hgen as [Hg1 Hg2]. split; [exact Hg1|]. split; [exact Hg2|].
  destruct (falsy providerKey) eqn:Hk.
  { rewrite onSummarize_no_key by exact Hk. split; [reflexivity | apply Htoast]. }
  destruct (trim sourceText) as [|c r] eqn:Ht.
  - destruct (trim sourceUrl) as [|c' r'] eqn:Hu.
    { rewrite onSummarize_nothing_to_read by assumption.
      split; [reflexivity | apply Htoast]. }
    rewrite onSummarize_from_url_paths by (try assumption; rewrite Hu; discriminate).
    rewrite Hu.
    assert (Hfetch : forall l, In (ev_setGenerating true)
                                 (trace (tryFetchUrlContent pf (c' :: r')) ++ l) ->
                               In (ev_setGenerating true) l).
    { intros l. rewrite in_app_iff. intros [H|H]; [|exact H].
      apply tryFetchUrlContent_events in H as [H|[H|(u & _ & _ & H)]]; discriminate H. }
    assert (HfetchS : forall l, In (ev_setSummarizing true)
                                 (trace (tryFetchUrlContent pf (c' :: r')) ++ l) ->
                               In (ev_setSummarizing true) l).
    { intros l. rewrite in_app_iff. intros [H|H]; [|exact H].
      apply tryFetchUrlContent_events in H as [H|[H|(u & _ & _ & H)]]; discriminate H. }
    destruct (new_URL pf (c' :: r')) as [e|u]; [split; [reflexivity | apply Htoast]|].
    destruct (includes http_schemes (protocol u)); [|split; [reflexivity | apply Htoast]].
    assert (Hfail : busy_cleared (trace (tryFetchUrlContent pf (c' :: r'))
        ++ [ev_toast (toast_error
              (lit "Could not fetch URL (CORS). Please paste the article text."))])).
    { split; intros H.
      - apply Hfetch in H as [H|[]]. discriminate H.
      - apply HfetchS in H as [H|[]]. discriminate H. }
    destruct (completion (tryFetchUrlContent pf (c' :: r'))) as [[[|d t]|]|e];
      try (split; [reflexivity | exact Hfail]).
    destruct (Hrun (d :: t)) as (Hc & Hs & Hn).
    destruct (do t0 <- truncate_text (d :: t); summarize_text pf provider providerKey t0)
      as [tr k]. cbn [completion trace fst snd] in *.
    split; [exact Hc|]. split.
    + intros H. apply Hfetch in H. contradiction.
    + intros H. apply HfetchS in H. destruct (Hs H) as [l ->].
      rewrite app_assoc. apply last_end.
  - destruct (Hrun (c :: r)) as (Hc & Hs & Hn).
    rewrite onSummarize_pasted by (try assumption; rewrite Ht; discriminate).
    rewrite Ht. split; [exact Hc|]. split.
    + intros H. contradiction.
    + intros H. destruct (Hs H) as [l ->]. apply last_end.
Qed.

End HandlerClaims.

Section HandlerClaimsMore.

Import SettingsDialog Lifecycle Index Spec Shape Runs.

Lemma callProvider_non_2xx pf provider providerKey prompt res :
  fetch_settles pf (provider_request provider (assert_key providerKey) prompt) = inr res ->
  ok res = false ->
  completion (callProvider pf provider providerKey prompt)
  = Throw (JsError (error_label provider ++ decimal (status res))).
Proof.
  intros Hres Hok. destruct provider; cbn [callProvider provider_request] in *.
  - rewrite callOpenAI_paths, Hres. cbn [completion snd]. by rewrite Hok.
  - rewrite callGemini_paths, Hres. cbn [completion snd]. by rewrite Hok.
Qed.

(** X11. An upstream failure reaches the user with its status: when the
    provider answers a valid generation request with a status outside 200
    to 299, [onGenerate] logs the error, shows the toast "OpenAI error N" or
    "Gemini error N" with the status in decimal, stores no article and
    lowers the busy flag. *)
Theorem onGenerate_upstream_status_shown
    (pf : Platform) (provider : Provider) (providerKey : option jsstring)
    (topic length : jsstring) (res : Response) :
  valid_topic topic = true -> falsy providerKey = false ->
  let prompt := generate_prompt pf (cleanTopic topic) (words_for length) in
  fetch_settles pf (provider_request provider (assert_key providerKey) prompt) = inr res ->
  ~ 200 <= status res <= 299 ->
  let message := error_label provider ++ decimal (status res) in
  onGenerate pf provider providerKey topic length
  = ([ev_setGenerating true; ev_setArticle []]
     ++ provider_call provider (assert_key providerKey) prompt
     ++ [ev_console_error (JsError message); ev_toast (toast_error message)]
     ++ [ev_setGenerating false],
     Return tt).
Proof.
  intros Hv Hk prompt Hres Hst message.
  rewrite (onGenerate_past_checks pf provider providerKey topic length Hv Hk).
  fold prompt. rewrite (callProvider_non_2xx pf provider providerKey prompt res Hres).
  - unfold generate_outcome, message_or. cbn [message_of].
    replace (or_else (Some (error_label provider ++ decimal (status res)))
               (lit "Generation failed")) with message; [reflexivity|].
    subst message. by destruct provider.
  - destruct (ok res) eqn:Hok; [|reflexivity]. apply ok_2xx in Hok. contradiction.
Qed.

Lemma onGenerate_upstream_status_shown_witness :
  onGenerate (answering (json_response 429 JNull)) openai (Some (lit "sk-1"))
    (lit "tea") (lit "short")
  = ([ev_setGenerating true; ev_setArticle []]
     ++ provider_call openai (lit "sk-1")
          (generate_prompt (answering (json_response 429 JNull)) (lit "tea") (own_number 300))
     ++ [ev_console_error (JsError (lit "OpenAI error 429"));
         ev_toast (toast_error (lit "OpenAI error 429"))]
     ++ [ev_setGenerating false],
     Return tt).
Proof.
  etrans; [apply (onGenerate_upstream_status_shown (answering (json_response 429 JNull))
                    openai (Some (lit "sk-1")) (lit "tea") (lit "short")
                    (json_response 429 JNull));
           [reflexivity | reflexivity | reflexivity | cbn; lia]|].
  vm_compute. reflexivity.
Defined.

(** X12. Pasted text has priority and is what gets summarised: with a key
    held and a source text that is not blank, [onSummarize] ignores the URL
    field altogether, shows the truncation warning if the trimmed text is
    longer than 12000 code units, raises the busy flag, clears the summary,
    makes one provider call for the prompt of the (capped) text, stores the
    result or reports the error, and lowers the busy flag last. *)
Theorem onSummarize_pasted_text_run
    (pf : Platform) (provider : Provider) (providerKey : option jsstring)
    (sourceText sourceUrl : jsstring) :
  falsy providerKey = false -> trim sourceText <> [] ->
  let text := trim sourceText in
  onSummarize pf provider providerKey sourceText sourceUrl
  = (cap_warning text
     ++ [ev_setSummarizing true; ev_setSummary []]
     ++ provider_call provider (assert_key providerKey) (summarize_prompt (capped text))
     ++ summarize_outcome pf
          (completion (callProvider pf provider providerKey (summarize_prompt (capped text))))
     ++ [ev_setSummarizing false],
     Return tt)
  /\ onSummarize pf provider providerKey sourceText sourceUrl
     = onSummarize pf provider providerKey sourceText [].
Proof.
  intros Hk Hne text. split.
  - by apply onSummarize_with_text.
  - by rewrite !onSummarize_pasted.
Qed.

Lemma onSummarize_pasted_text_run_witness :
  onSummarize (answering (json_response 200 sample_openai_body)) openai (Some (lit "sk-1"))
    (lit " some text ") (lit "https://example.com")
  = ([ev_setSummarizing true; ev_setSummary []]
     ++ provider_call openai (lit "sk-1") (summarize_prompt (lit "some text"))
     ++ [ev_setSummary (lit "Hello there.")]
     ++ [ev_setSummarizing false],
     Return tt).
Proof.
  etrans; [apply (onSummarize_pasted_text_run
                    (answering (json_response 200 sample_openai_body)) openai
                    (Some (lit "sk-1")) (lit " some text ") (lit "https://example.com"));
           [reflexivity | vm_compute; discriminate]|].
  vm_compute. reflexivity.
Defined.

(** X13. The URL path of [onSummarize], taken with a key held, a blank
    source text and a URL that is not blank.  A URL that does not parse, or
    whose protocol is neither http: nor https:, is refused with a validation
    error before anything is fetched.  Otherwise the page is fetched; when
    the fetcher returns nothing or an empty text, the fetch error is shown
    after the fetcher's events and no provider is called; when it returns a
    text, the run goes on with that text exactly as with a pasted one. *)
Theorem onSummarize_url_run
    (pf : Platform) (provider : Provider) (providerKey : option jsstring)
    (sourceText sourceUrl : jsstring) :
  falsy providerKey = false -> trim sourceText = [] -> trim sourceUrl <> [] ->
  let url := trim sourceUrl in
  let run := onSummarize pf provider providerKey sourceText sourceUrl in
  ((forall u, new_URL pf url = inr u -> includes http_schemes (protocol u) = false) ->
   fails_with ValidationError run /\ requests (trace run) = [])
  /\ (forall u, new_URL pf url = inr u -> includes http_schemes (protocol u) = true ->
      (falsy (match completion (tryFetchUrlContent pf url) with
              | Return r => r
              | Throw _ => None
              end) = true ->
       run = (trace (tryFetchUrlContent pf url)
              ++ [ev_toast (toast_error
                    (lit "Could not fetch URL (CORS). Please paste the article text."))],
              Return tt))
      /\ (forall text, text <> [] ->
          completion (tryFetchUrlContent pf url) = Return (Some text) ->
          run = (trace (tryFetchUrlContent pf url)
                 ++ cap_warning text
                 ++ [ev_setSummarizing true; ev_setSummary []]
                 ++ provider_call provider (assert_key providerKey)
                      (summarize_prompt (capped text))
                 ++ summarize_outcome pf
                      (completion (callProvider pf provider providerKey
                                     (summarize_prompt (capped text))))
                 ++ [ev_setSummarizing false],
                 Return tt))).
Proof.
  intros Hk Ht Hu url run. subst run.
  rewrite onSummarize_from_url_paths by assumption. fold url. split.
  - intros Hbad. destruct (new_URL pf url) as [e|u].
    + split; [|reflexivity]. eexists. split; [|reflexivity]. cbn. tauto.
    + rewrite (Hbad u eq_refl). split; [|reflexivity].
      eexists. split; [|reflexivity]. cbn. tauto.
  - intros u Hurl Hs. rewrite Hurl, Hs. split.
    + destruct (completion (tryFetchUrlContent pf url)) as [[[|c r]|]|e];
        try reflexivity. discriminate.
    + intros text Hne Hc. rewrite Hc. destruct text as [|c r]; [contradiction|].
      by rewrite summarize_from_text.
Qed.

Lemma onSummarize_url_run_witness :
  fails_with ValidationError
    (onSummarize offline openai (Some (lit "sk-1")) [] (lit "ftp://example.com"))
  /\ onSummarize offline openai (Some (lit "sk-1")) [] (lit "https://example.com")
     = (trace (tryFetchUrlContent offline (lit "https://example.com"))
        ++ [ev_toast (toast_error
              (lit "Could not fetch URL (CORS). Please paste the article text."))],
        Return tt).
Proof.
  split.
  - destruct (onSummarize_url_run offline openai (Some (lit "sk-1")) []
                (lit "ftp://example.com") eq_refl eq_refl ltac:(vm_compute; discriminate))
      as [Hbad _].
    apply Hbad. intros u Hu. vm_compute in Hu. injection Hu as <-. reflexivity.
  - destruct (onSummarize_url_run offline openai (Some (lit "sk-1")) []
                (lit "https://example.com") eq_refl eq_refl
                ltac:(vm_compute; discriminate)) as [_ Hgood].
    destruct (Hgood (mkURL (lit "https:") (lit "https://example.com")) eq_refl eq_refl)
      as [Hnone _].
    etrans; [apply Hnone; reflexivity|]. reflexivity.
Defined.

End HandlerClaimsMore.

Section HandlerClaimsLast.

Import SettingsDialog Lifecycle Index Spec Shape Runs.

(** X14. What [onSummarize] ever sends, for every input and platform: a
    request is either the page fetch, made only when the source text is
    blank and the URL parsed with an http(s) protocol, or the provider
    request, which carries a key that is not empty and a prompt whose
    article text is not empty and at most 12000 code units long. *)
Theorem onSummarize_requests_bounded
    (pf : Platform) (provider : Provider) (providerKey : option jsstring)
    (sourceText sourceUrl : jsstring) (req : Request) :
  In req (requests (trace (onSummarize pf provider providerKey sourceText sourceUrl))) ->
  (exists u, trim sourceText = []
             /\ new_URL pf (trim sourceUrl) = inr u
             /\ includes http_schemes (protocol u) = true
             /\ req = content_request u)
  \/ (exists key text, providerKey = Some key /\ key <> []
                       /\ text <> [] /\ len text <= MAX_TEXT
                       /\ req = provider_request provider key (summarize_prompt text)).
Proof.
  destruct (falsy providerKey) eqn:Hk.
  { rewrite onSummarize_no_key by exact Hk. intros []. }
  destruct (falsy_Some_key providerKey Hk) as (key & Hkey & Hne & Hak).
  assert (Hrun : forall text, text <> [] ->
    In req (requests (cap_warning text
       ++ [ev_setSummarizing true; ev_setSummary []]
       ++ provider_call provider (assert_key providerKey) (summarize_prompt (capped text))
       ++ summarize_outcome pf
            (completion (callProvider pf provider providerKey
                           (summarize_prompt (capped text))))
       ++ [ev_setSummarizing false])) ->
    exists key text, providerKey = Some key /\ key <> []
                     /\ text <> [] /\ len text <= MAX_TEXT
                     /\ req = provider_request provider key (summarize_prompt text)).
  { intros text Ht. rewrite requests_of_summarize_run. intros [<-|[]].
    destruct (capped_bound text Ht) as [Hc1 Hc2].
    exists key, (capped text). by rewrite Hak. }
  destruct (trim sourceText) as [|c r] eqn:Ht.
  - destruct (trim sourceUrl) as [|c' r'] eqn:Hu.
    { rewrite onSummarize_nothing_to_read by assumption. intros []. }
    rewrite onSummarize_from_url_paths by (try assumption; rewrite Hu; discriminate).
    rewrite Hu.
    assert (Hfetch : In req (requests (trace (tryFetchUrlContent pf (c' :: r')))) ->
      exists u, new_URL pf (c' :: r') = inr u
                /\ includes http_schemes (protocol u) = true /\ req = content_request u).
    { rewrite tryFetchUrlContent_paths.
      destruct (new_URL pf (c' :: r')) as [e|u]; [intros []|].
      destruct (includes http_schemes (protocol u)) eqn:Hs; [|intros []].
      destruct (fetch_settles pf (content_request u)); intros [<-|[]]; by exists u. }
    assert (Hleft : In req (requests (trace (tryFetchUrlContent pf (c' :: r')))) ->
      exists u0, ([] : jsstring) = [] /\ new_URL pf (c' :: r') = inr u0
                 /\ includes http_schemes (protocol u0) = true /\ req = content_request u0).
    { intros H. destruct (Hfetch H) as (u0 & H0 & H1 & H2). by exists u0. }
    clear Hfetch.
    destruct (new_URL pf (c' :: r')) as [e|u]; [intros []|].
    destruct (includes http_schemes (protocol u)); [|intros []].
    assert (Htoast : forall l msg,
      requests (l ++ [ev_toast (toast_error msg)]) = requests l).
    { intros l msg. rewrite requests_app. apply app_nil_r. }
    destruct (completion (tryFetchUrlContent pf (c' :: r'))) as [[[|d t]|]|e];
      cbv beta iota;
      try (cbn [trace fst]; rewrite Htoast; intros H; left; exact (Hleft H)).
    rewrite (summarize_from_text pf provider providerKey (d :: t)).
    cbn [trace fst]. rewrite requests_app, in_app_iff.
    intros [H|H]; [left; exact (Hleft H) | right; by apply (Hrun (d :: t))].
  - rewrite onSummarize_with_text by (try assumption; rewrite Ht; discriminate).
    rewrite Ht. cbn [trace fst]. intros H. right. by apply (Hrun (c :: r)).
Qed.

Lemma onSummarize_requests_bounded_witness :
  (exists u, trim (lit "  ") = []
             /\ new_URL offline (trim (lit "https://example.com")) = inr u
             /\ includes http_schemes (protocol u) = true
             /\ content_request (mkURL (lit "https:") (lit "https://example.com"))
                = content_request u)
  \/ (exists key text, Some (lit "sk-1") = Some key /\ key <> []
                       /\ text <> [] /\ len text <= MAX_TEXT
                       /\ content_request (mkURL (lit "https:") (lit "https://example.com"))
                          = provider_request openai key (summarize_prompt text)).
Proof.
  apply (onSummarize_requests_bounded offline openai (Some (lit "sk-1")) (lit "  ")
           (lit "https://example.com")
           (content_request (mkURL (lit "https:") (lit "https://example.com")))).
  vm_compute. left. reflexivity.
Defined.

(** X15. Timers of the handlers.  [onGenerate] never leaves a timer armed:
    in every run it disarms as many timers as it arms, at most one.
    [onSummarize] arms at most two.  When a key is held, the source text is
    blank, the URL is not blank and parses with an http(s) protocol, and
    the page fetch rejects, the run of [onSummarize] is exactly: the 8000 ms
    timer armed, the page fetch, the report that the page could not be
    fetched; the timer of the fetch is armed and never disarmed.  In every
    other run [onSummarize] disarms as many timers as it arms: the two
    counts differ only under the conditions just listed. *)
Theorem handler_timers
    (pf : Platform) (provider : Provider) (providerKey : option jsstring)
    (topic length sourceText sourceUrl : jsstring) :
  let g := trace (onGenerate pf provider providerKey topic length) in
  let s := trace (onSummarize pf provider providerKey sourceText sourceUrl) in
  armed g = disarmed g /\ (armed g <= 1)%nat
  /\ (armed s <= 2)%nat
  /\ (forall u e,
        falsy providerKey = false ->
        trim sourceText = [] -> trim sourceUrl <> [] ->
        new_URL pf (trim sourceUrl) = inr u ->
        includes http_schemes (protocol u) = true ->
        fetch_settles pf (content_request u) = inl e ->
        s = [ev_setTimeout 8000; ev_fetch (content_request u);
             ev_toast (toast_error
               (lit "Could not fetch URL (CORS). Please paste the article text."))]
        /\ armed s = 1%nat /\ disarmed s = 0%nat)
  /\ (armed s <> disarmed s ->
      falsy providerKey = false
      /\ trim sourceText = [] /\ trim sourceUrl <> []
      /\ exists u e, new_URL pf (trim sourceUrl) = inr u
                     /\ includes http_schemes (protocol u) = true
                     /\ fetch_settles pf (content_request u) = inl e).
Proof.
  intros g s. subst g s. split; [|split; [|split; [|split]]].
  - destruct (valid_topic topic && negb (falsy providerKey)) eqn:E.
    + apply andb_true_iff in E as [Hv Hk]. apply negb_true_iff in Hk.
      rewrite (onGenerate_past_checks pf provider providerKey topic length Hv Hk).
      cbn [trace fst]. unfold armed, disarmed, generate_outcome. rewrite !count_app.
      by destruct (completion _).
    + by destruct (onGenerate_refused pf provider providerKey topic length E) as [msg ->].
  - destruct (valid_topic topic && negb (falsy providerKey)) eqn:E.
    + apply andb_true_iff in E as [Hv Hk]. apply negb_true_iff in Hk.
      rewrite (onGenerate_past_checks pf provider providerKey topic length Hv Hk).
      cbn [trace fst]. unfold armed, generate_outcome. rewrite !count_app.
      by destruct (completion _).
    + destruct (onGenerate_refused pf provider providerKey topic length E) as [msg ->].
      cbn. lia.
  - destruct (falsy providerKey) eqn:Hk.
    { rewrite onSummarize_no_key by exact Hk. cbn; lia. }
    destruct (trim sourceText) as [|c r] eqn:Ht.
    + destruct (trim sourceUrl) as [|c' r'] eqn:Hu.
      { rewrite onSummarize_nothing_to_read by assumption. cbn; lia. }
      rewrite onSummarize_from_url_paths by (try assumption; rewrite Hu; discriminate).
      rewrite Hu. rewrite tryFetchUrlContent_paths.
      destruct (new_URL pf (c' :: r')) as [e|u] eqn:Hurl; [cbn; lia|].
      destruct (includes http_schemes (protocol u)); [|cbn; lia].
      destruct (fetch_settles pf (content_request u)) as [e|res] eqn:Hf.
      { cbn [completion trace fst snd]. cbn; lia. }
      cbn [completion trace fst snd].
      destruct (ok res); [|cbn; lia].
      destruct (text res) as [e|html]; [cbn; lia|].
      destruct (strip_html html) as [|d t]; [cbn; lia|].
      rewrite summarize_from_text.
      destruct (timers_of_summarize_run pf provider providerKey (d :: t)) as [Ha Hd].
      cbn [trace fst]. unfold armed in *.
      rewrite !(count_app _ [ev_setTimeout 8000; ev_fetch (content_request u); ev_clearTimeout]).
      rewrite Ha. cbn; lia.
    + rewrite onSummarize_with_text by (try assumption; rewrite Ht; discriminate).
      rewrite Ht. cbn [trace fst].
      destruct (timers_of_summarize_run pf provider providerKey (c :: r)) as [Ha Hd].
      rewrite Ha. lia.
  - intros u e Hk Ht Hu Hurl Hs Hf.
    rewrite onSummarize_from_url_paths by assumption.
    rewrite Hurl, Hs, tryFetchUrlContent_paths, Hurl, Hs, Hf.
    cbn [completion trace fst snd app]. repeat split.
  - destruct (falsy providerKey) eqn:Hk.
    { rewrite onSummarize_no_key by exact Hk. intros H. by destruct H. }
    destruct (trim sourceText) as [|c r] eqn:Ht.
    + destruct (trim sourceUrl) as [|c' r'] eqn:Hu.
      { rewrite onSummarize_nothing_to_read by assumption. intros H. by destruct H. }
      rewrite onSummarize_from_url_paths by (try assumption; rewrite Hu; discriminate).
      rewrite Hu. rewrite tryFetchUrlContent_paths.
      destruct (new_URL pf (c' :: r')) as [e|u] eqn:Hurl; [intros H; by destruct H|].
      destruct (includes http_schemes (protocol u)) eqn:Hs; [|intros H; by destruct H].
      destruct (fetch_settles pf (content_request u)) as [e|res] eqn:Hf.
      { intros _. split; [reflexivity|]. split; [reflexivity|]. split; [discriminate|].
        by exists u, e. }
      cbn [completion trace fst snd].
      destruct (ok res); [|intros H; by destruct H].
      destruct (text res) as [e|html]; [intros H; by destruct H|].
      destruct (strip_html html) as [|d t]; [intros H; by destruct H|].
      rewrite summarize_from_text.
      destruct (timers_of_summarize_run pf provider providerKey (d :: t)) as [Ha Hd].
      cbn [trace fst]. unfold armed, disarmed in *.
      rewrite !(count_app _ [ev_setTimeout 8000; ev_fetch (content_request u); ev_clearTimeout]).
      rewrite Ha, Hd. intros H. by destruct H.
    + rewrite onSummarize_with_text by (try assumption; rewrite Ht; discriminate).
      rewrite Ht. cbn [trace fst].
      destruct (timers_of_summarize_run pf provider providerKey (c :: r)) as [Ha Hd].
      rewrite Ha, Hd. intros H. by destruct H.
Qed.

Lemma handler_timers_witness :
  trace (onSummarize offline openai (Some (lit "sk-1")) (lit "  ")
           (lit " https://example.com "))
  = [ev_setTimeout 8000;
     ev_fetch (content_request (mkURL (lit "https:") (lit "https://example.com")));
     ev_toast (toast_error
       (lit "Could not fetch URL (CORS). Please paste the article text."))]
  /\ armed (trace (onSummarize offline openai (Some (lit "sk-1")) (lit "  ")
                     (lit " https://example.com "))) = 1%nat
  /\ disarmed (trace (onSummarize offline openai (Some (lit "sk-1")) (lit "  ")
                        (lit " https://example.com "))) = 0%nat.
Proof.
  destruct (handler_timers offline openai (Some (lit "sk-1")) (lit "tea") (lit "medium")
              (lit "  ") (lit " https://example.com ")) as (_ & _ & _ & Hrej & _).
  apply (Hrej (mkURL (lit "https:") (lit "https://example.com"))
              (PlatformError "TypeError" (lit "Failed to fetch")));
    vm_compute; (reflexivity || discriminate).
Defined.

(** X16. Saved settings drive the next page load: after [onSave] and a
    mount, [onGenerate] on a valid topic sends its one request to the saved
    provider with the key entered for that provider, and sends nothing when
    that key was left empty, whatever was stored before and whatever was
    entered for the other provider. *)
Theorem saved_settings_drive_generate
    (pf : Platform) (p : Provider) (m kA kB : jsstring) (b : Browser)
    (topic length : jsstring) :
  valid_topic topic = true ->
  let page := mount (fst (onSave p m kA kB b)) in
  requests (trace (onGenerate pf (activeProvider page) (providerKey page) topic length))
  = if truthy_str (entered p kA kB)
    then [provider_request p (entered p kA kB)
            (generate_prompt pf (cleanTopic topic) (words_for length))]
    else [].
Proof.
  intros Hv page. subst page. rewrite mount_onSave. cbn [activeProvider providerKey].
  rewrite requests_of_onGenerate, Hv. cbn [andb].
  by destruct (entered p kA kB).
Qed.

Lemma saved_settings_drive_generate_witness :
  requests (trace (onGenerate offline
     (activeProvider (mount (fst (onSave gemini (lit "session") (lit "sk-1") (lit "AIza")
                                     sample_browser))))
     (providerKey (mount (fst (onSave gemini (lit "session") (lit "sk-1") (lit "AIza")
                                  sample_browser))))
     (lit "tea") (lit "medium")))
  = [gemini_request (lit "AIza") (generate_prompt offline (lit "tea") (own_number 700))].
Proof.
  etrans; [apply (saved_settings_drive_generate offline gemini (lit "session") (lit "sk-1")
                    (lit "AIza") sample_browser (lit "tea") (lit "medium")); reflexivity|].
  reflexivity.
Defined.

End HandlerClaimsLast.
